(** * BeatBattles room coordinator: room codes, room service, game-state view

    Shallow embedding of
      - server/src/utils/roomUtils.ts    (generateRoomCode, isValidRoomCode,
                                          formatRoomCode)
      - server/src/types/index.ts        (User, RoomStatus, Room, GameState)
      - server/src/services/roomService.ts (the room service)

    Conventions of the embedding:
      - a JS string is a [string]; its characters stand for UTF-16 code
        units below 256, so [String.length] is the JS [length];
      - [Math.random()] is an explicit rational argument, [new Date()] an
        explicit millisecond count, [uuidv4()] an explicit string;
      - the two module-level maps of roomService.ts form the [Store]; every
        exported function of the service is a computation in the state
        monad [Svc] over it. *)

From Stdlib Require Import ZArith QArith Qround String Ascii List Bool Lia Lqa.
From Stdlib Require Import Permutation Sorted.
From stdpp Require Import base option list strings gmap.
Import ListNotations.

Local Open Scope string_scope.
Local Open Scope Z_scope.

(** ** JavaScript helpers *)

(** [s.charAt(i)]: the one-character string at index [i], the empty string
    when [i] is out of range. *)
Definition charAt (s : string) (i : Z) : string :=
  if (0 <=? i) && (i <? Z.of_nat (String.length s))
  then substring (Z.to_nat i) 1 s
  else "".

(** [s.slice(a, b)] and [s.slice(a)] for non-negative literal bounds. *)
Definition slice (s : string) (a b : nat) : string :=
  substring a (Nat.min b (String.length s) - a) s.

Definition slice_from (s : string) (a : nat) : string :=
  substring a (String.length s - a) s.

(** [Math.floor] on the rationals. *)
Definition Math_floor (q : Q) : Z := Qfloor q.

(** [Math.floor(Math.random() * n)] for a draw [r]. *)
Definition random_index (r : Q) (n : nat) : Z :=
  Math_floor (r * inject_Z (Z.of_nat n)).

(** A value typed [string] that the tests also feed [null] and
    [undefined]. *)
Inductive JsString : Type :=
| JsNull
| JsUndefined
| JsStr (s : string).

(** An optional property of an object: missing, present and holding
    [undefined], or present with a value. Object spread copies the last two
    and skips the first. *)
Inductive optional (A : Type) : Type :=
| Absent
| Undefined
| Defined (a : A).
Arguments Absent {A}.
Arguments Undefined {A}.
Arguments Defined {A} a.

(** The property of [{...base, ...over}]. *)
Definition spread {A : Type} (base over : optional A) : optional A :=
  match over with
  | Absent => base
  | _ => over
  end.

(** [arr.findIndex(f)]; [None] stands for [-1]. *)
Fixpoint findIndex {A : Type} (f : A -> bool) (l : list A) : option nat :=
  match l with
  | [] => None
  | x :: l' => if f x then Some O else option_map S (findIndex f l')
  end.

(** [arr.sort(cmp)]: the sort is stable; [a] goes before [b] when
    [cmp a b <= 0] and they arrive in that order. *)
Fixpoint sort_insert {A : Type} (cmp : A -> A -> Z) (x : A) (l : list A) : list A :=
  match l with
  | [] => [x]
  | y :: l' => if cmp x y <=? 0 then x :: y :: l' else y :: sort_insert cmp x l'
  end.

Fixpoint sort_by {A : Type} (cmp : A -> A -> Z) (l : list A) : list A :=
  match l with
  | [] => []
  | x :: l' => sort_insert cmp x (sort_by cmp l')
  end.

(** An insertion-ordered [Map<string, V>]. *)
Module JsMap.
Definition t (V : Type) : Type := list (string * V).

Definition empty {V : Type} : t V := [].

Fixpoint get {V : Type} (k : string) (m : t V) : option V :=
  match m with
  | [] => None
  | (k', v) :: m' => if String.eqb k k' then Some v else get k m'
  end.

Definition has {V : Type} (k : string) (m : t V) : bool :=
  match get k m with Some _ => true | None => false end.

(** [set] keeps the position of a key that is already there and appends
    a new one. *)
Fixpoint set {V : Type} (k : string) (v : V) (m : t V) : t V :=
  match m with
  | [] => [(k, v)]
  | (k', v') :: m' =>
      if String.eqb k k' then (k', v) :: m' else (k', v') :: set k v m'
  end.

Fixpoint delete {V : Type} (k : string) (m : t V) : t V :=
  match m with
  | [] => []
  | (k', v') :: m' =>
      if String.eqb k k' then delete k m' else (k', v') :: delete k m'
  end.

Definition values {V : Type} (m : t V) : list V := map snd m.
Definition keys {V : Type} (m : t V) : list string := map fst m.
End JsMap.

(** ** utils/roomUtils.ts *)

Definition characters : string := "ABCDEFGHJKLMNPQRSTUVWXYZ23456789".

(** [rand i] is the value of [Math.random()] in iteration [i] of the loop. *)
Definition generateRoomCode (rand : nat -> Q) : string :=
  fold_left
    (fun result i =>
       let randomIndex := random_index (rand i) (String.length characters) in
       result ++ charAt characters randomIndex)
    (seq 0 6) "".

(** One character of the class [[A-Z0-9]]. *)
Definition upper_or_digit (c : ascii) : bool :=
  let n := nat_of_ascii c in
  ((65 <=? n) && (n <=? 90) || (48 <=? n) && (n <=? 57))%nat.

(** [/^[A-Z0-9]{6}$/.test(code)] *)
Definition isValidRoomCode (code : string) : bool :=
  (String.length code =? 6)%nat && forallb upper_or_digit (list_ascii_of_string code).

(** [!code] for a [JsString]. *)
Definition falsy (code : JsString) : bool :=
  match code with
  | JsNull | JsUndefined => true
  | JsStr s => (String.length s =? 0)%nat
  end.

Definition formatRoomCode (code : JsString) : JsString :=
  if falsy code then code
  else
    match code with
    | JsStr s =>
        if negb (String.length s =? 6)%nat then code
        else JsStr (slice s 0 3 ++ " " ++ slice_from s 3)
    | _ => code
    end.

(** ** types/index.ts *)

Module User.
Record t : Type := mk {
  id : string;
  username : string;
  avatar : optional string;
  isConnected : bool;
  socketId : optional string
}.
End User.

Inductive RoomStatus : Type :=
| WAITING
| COMPOSING
| VOTING
| RESULTS.

Definition RoomStatus_eqb (a b : RoomStatus) : bool :=
  match a, b with
  | WAITING, WAITING | COMPOSING, COMPOSING
  | VOTING, VOTING | RESULTS, RESULTS => true
  | _, _ => false
  end.

(** Position of a status on the phase line Waiting, Composing, Voting,
    Results. *)
Definition phase (st : RoomStatus) : nat :=
  match st with
  | WAITING => 0
  | COMPOSING => 1
  | VOTING => 2
  | RESULTS => 3
  end.

(** [maxPlayers] is a whole number here, where the source has a [number]:
    what is proved about capacities holds for whole-number capacities. *)
Module Room.
Record t : Type := mk {
  id : string;
  code : string;
  status : RoomStatus;
  hostId : string;
  players : list User.t;
  maxPlayers : Z;
  theme : option string;
  createdAt : Z;
  updatedAt : Z
}.

Definition with_players (v : list User.t) (r : t) : t :=
  mk (id r) (code r) (status r) (hostId r) v (maxPlayers r) (theme r)
     (createdAt r) (updatedAt r).
Definition with_hostId (v : string) (r : t) : t :=
  mk (id r) (code r) (status r) v (players r) (maxPlayers r) (theme r)
     (createdAt r) (updatedAt r).
Definition with_status (v : RoomStatus) (r : t) : t :=
  mk (id r) (code r) v (hostId r) (players r) (maxPlayers r) (theme r)
     (createdAt r) (updatedAt r).
Definition with_theme (v : option string) (r : t) : t :=
  mk (id r) (code r) (status r) (hostId r) (players r) (maxPlayers r) v
     (createdAt r) (updatedAt r).
Definition with_updatedAt (v : Z) (r : t) : t :=
  mk (id r) (code r) (status r) (hostId r) (players r) (maxPlayers r)
     (theme r) (createdAt r) v.
End Room.

Module GameState.
Record t : Type := mk {
  roomId : string;
  status : RoomStatus;
  theme : option string;
  timeRemaining : option Z
}.
End GameState.

(** ** services/roomService.ts *)

(** [rooms] and [roomsByCode]. Only [rooms] is iterated, so only it keeps
    its insertion order. A call changes the room object it found in place
    and then stores it under [room.id]; here it stores the changed room
    under [Room.id room], which is the key the room was found under in
    every store the service builds ([ok_key_id] below). *)
Record Store : Type := mkStore {
  rooms : JsMap.t Room.t;
  roomsByCode : gmap string string
}.

Definition empty_store : Store := mkStore JsMap.empty ∅.

(** The service monad: a computation reads and writes the two maps. *)
Definition Svc (A : Type) : Type := Store -> A * Store.

Definition ret {A : Type} (a : A) : Svc A := fun s => (a, s).

Definition bind {A B : Type} (m : Svc A) (k : A -> Svc B) : Svc B :=
  fun s => let (a, s') := m s in k a s'.

Notation "'let*' x := m 'in' k" := (bind m (fun x => k))
  (at level 10, x name, m at level 100, k at level 200).
Notation "'do' m 'then' k" := (bind m (fun _ => k))
  (at level 10, m at level 100, k at level 200).

Definition rooms_get (k : string) : Svc (option Room.t) :=
  fun s => (JsMap.get k (rooms s), s).
Definition rooms_set (k : string) (r : Room.t) : Svc unit :=
  fun s => (tt, mkStore (JsMap.set k r (rooms s)) (roomsByCode s)).
Definition rooms_delete (k : string) : Svc unit :=
  fun s => (tt, mkStore (JsMap.delete k (rooms s)) (roomsByCode s)).
Definition rooms_entries : Svc (list (string * Room.t)) :=
  fun s => (rooms s, s).
Definition rooms_values : Svc (list Room.t) :=
  fun s => (JsMap.values (rooms s), s).
Definition roomsByCode_get (c : string) : Svc (option string) :=
  fun s => (roomsByCode s !! c, s).
Definition roomsByCode_has (c : string) : Svc bool :=
  fun s => (bool_decide (is_Some (roomsByCode s !! c)), s).
Definition roomsByCode_set (c k : string) : Svc unit :=
  fun s => (tt, mkStore (rooms s) (<[c := k]> (roomsByCode s))).
Definition roomsByCode_delete (c : string) : Svc unit :=
  fun s => (tt, mkStore (rooms s) (delete c (roomsByCode s))).

(** Result and final store of a computation. *)
Definition result {A : Type} (m : Svc A) (s : Store) : A := fst (m s).
Definition after {A : Type} (m : Svc A) (s : Store) : Store := snd (m s).

(** [arr[i]] for a computed index; [None] stands for [undefined]. *)
Definition js_index {A : Type} (l : list A) (i : Z) : option A :=
  if 0 <=? i then nth_error l (Z.to_nat i) else None.

Fixpoint for_each {A : Type} (f : A -> Svc unit) (l : list A) : Svc unit :=
  match l with
  | [] => ret tt
  | x :: l' => do f x then for_each f l'
  end.

(** The [while] loop of [createRoom]. [attempts] lists the draws of the
    successive [generateRoomCode()] calls; [None] when every one of them
    collides, in which case the loop is still running. *)
Fixpoint unique_code (attempts : list (nat -> Q)) : Svc (option string) :=
  match attempts with
  | [] => ret None
  | rand :: rest =>
      let roomCode := generateRoomCode rand in
      let* taken := roomsByCode_has roomCode in
      if taken then unique_code rest else ret (Some roomCode)
  end.

Definition createRoom (attempts : list (nat -> Q)) (uuid : string) (now : Z)
    (host : User.t) (maxPlayers : option Z) : Svc (option Room.t) :=
  let maxPlayers := default 10 maxPlayers in
  let* roomCode := unique_code attempts in
  match roomCode with
  | None => ret None
  | Some roomCode =>
      let roomId := uuid in
      let room :=
        Room.mk roomId roomCode WAITING (User.id host) [host] maxPlayers None
                now now in
      do rooms_set roomId room then
      do roomsByCode_set roomCode roomId then
      ret (Some room)
  end.

Definition getRoomByCode (code : string) : Svc (option Room.t) :=
  if negb (isValidRoomCode code) then ret None
  else
    let* roomId := roomsByCode_get code in
    match roomId with
    | None => ret None
    | Some roomId =>
        if String.eqb roomId "" then ret None else rooms_get roomId
    end.

Definition getRoomById (id : string) : Svc (option Room.t) := rooms_get id.

(** [{...existing, ...user, isConnected: true}] *)
Definition refresh_user (existing user : User.t) : User.t :=
  User.mk (User.id user) (User.username user)
          (spread (User.avatar existing) (User.avatar user))
          true
          (spread (User.socketId existing) (User.socketId user)).

(** [{...user, isConnected: true}] *)
Definition connect_user (user : User.t) : User.t :=
  User.mk (User.id user) (User.username user) (User.avatar user) true
          (User.socketId user).

Definition has_id (userId : string) (p : User.t) : bool :=
  String.eqb (User.id p) userId.

Definition joinRoom (now : Z) (roomCode : string) (user : User.t)
    : Svc (option Room.t) :=
  let* room := getRoomByCode roomCode in
  match room with
  | None => ret None
  | Some room =>
      if Z.of_nat (length (Room.players room)) >=? Room.maxPlayers room
      then ret None
      else if negb (RoomStatus_eqb (Room.status room) WAITING) then ret None
      else
        let existingUserIndex :=
          findIndex (has_id (User.id user)) (Room.players room) in
        let players' :=
          match existingUserIndex with
          | Some i =>
              match Room.players room !! i with
              | Some existing =>
                  <[i := refresh_user existing user]> (Room.players room)
              | None => Room.players room
              end
          | None => (Room.players room ++ [connect_user user])%list
          end in
        let room := Room.with_players players' room in
        let room := Room.with_updatedAt now room in
        do rooms_set (Room.id room) room then
        ret (Some room)
  end.

Definition leaveRoom (now : Z) (roomCode userId : string)
    : Svc (option Room.t) :=
  let* room := getRoomByCode roomCode in
  match room with
  | None => ret None
  | Some room =>
      match findIndex (has_id userId) (Room.players room) with
      | None => ret (Some room)
      | Some _ =>
          let room :=
            if String.eqb (Room.hostId room) userId
               && (1 <? length (Room.players room))%nat
            then
              match List.find
                      (fun p => negb (has_id userId p) && User.isConnected p)
                      (Room.players room) with
              | Some newHost => Room.with_hostId (User.id newHost) room
              | None => room
              end
            else room in
          let room :=
            Room.with_players
              (List.filter (fun p => negb (has_id userId p)) (Room.players room))
              room in
          if (length (Room.players room) =? 0)%nat then
            do rooms_delete (Room.id room) then
            do roomsByCode_delete (Room.code room) then
            ret None
          else
            let room := Room.with_updatedAt now room in
            do rooms_set (Room.id room) room then
            ret (Some room)
      end
  end.

Definition themes : list string :=
  [ "Space Adventure"; "Underwater Journey"; "Jungle Expedition";
    "Desert Mirage"; "Cyberpunk City"; "Medieval Castle"; "Haunted Mansion";
    "Tropical Paradise"; "Arctic Wilderness"; "Steampunk Factory" ].

(** [r] is the value of the one [Math.random()] call. *)
Definition startGame (r : Q) (now : Z) (roomCode userId : string)
    : Svc (option Room.t) :=
  let* room := getRoomByCode roomCode in
  match room with
  | None => ret None
  | Some room =>
      if negb (String.eqb (Room.hostId room) userId) then ret None
      else if (length (Room.players room) <? 2)%nat then ret None
      else
        let randomTheme := js_index themes (random_index r (length themes)) in
        let room := Room.with_status COMPOSING room in
        let room := Room.with_theme randomTheme room in
        let room := Room.with_updatedAt now room in
        do rooms_set (Room.id room) room then
        ret (Some room)
  end.

Definition available (room : Room.t) : bool :=
  RoomStatus_eqb (Room.status room) WAITING
  && (Z.of_nat (length (Room.players room)) <? Room.maxPlayers room).

Definition newest_first (a b : Room.t) : Z :=
  Room.createdAt b - Room.createdAt a.

Definition getAvailableRooms : Svc (list Room.t) :=
  let* values := rooms_values in
  ret (sort_by newest_first (List.filter available values)).

Definition updateUserConnection (now : Z) (roomId userId : string)
    (isConnected : bool) (socketId : option string) : Svc (option Room.t) :=
  let* room := getRoomById roomId in
  match room with
  | None => ret None
  | Some room =>
      match findIndex (has_id userId) (Room.players room) with
      | None => ret (Some room)
      | Some userIndex =>
          let players' :=
            match Room.players room !! userIndex with
            | Some p =>
                <[userIndex :=
                    User.mk (User.id p) (User.username p) (User.avatar p)
                      isConnected
                      (if isConnected
                       then match socketId with
                            | Some sid => Defined sid
                            | None => Undefined
                            end
                       else Undefined)]> (Room.players room)
            | None => Room.players room
            end in
          let room := Room.with_players players' room in
          let room := Room.with_updatedAt now room in
          do rooms_set (Room.id room) room then
          ret (Some room)
      end
  end.

Definition getTimeRemaining (room : Room.t) : option Z :=
  match Room.status room with
  | COMPOSING => Some 300
  | VOTING => Some 120
  | _ => None
  end.

Definition getGameState (roomId : string) : Svc (option GameState.t) :=
  let* room := getRoomById roomId in
  match room with
  | None => ret None
  | Some room =>
      ret (Some (GameState.mk (Room.id room) (Room.status room)
                   (Room.theme room) (getTimeRemaining room)))
  end.

(** One round of the loop of [cleanupDisconnectedUsers]; [now roomId] is
    the clock reading of the round that visits [roomId]. *)
Definition cleanup_entry (now : string -> Z) (entry : string * Room.t)
    : Svc unit :=
  let (roomId, room) := entry in
  let updatedPlayers := List.filter User.isConnected (Room.players room) in
  if negb (length updatedPlayers =? length (Room.players room))%nat then
    let room := Room.with_players updatedPlayers room in
    let room := Room.with_updatedAt (now roomId) room in
    if (length (Room.players room) =? 0)%nat then
      do rooms_delete roomId then
      roomsByCode_delete (Room.code room)
    else
      let room :=
        if negb (existsb (has_id (Room.hostId room)) (Room.players room))
        then
          match Room.players room with
          | first :: _ => Room.with_hostId (User.id first) room
          | [] => room
          end
        else room in
      rooms_set roomId room
  else ret tt.

(** A round only touches the entry it visits, so the loop runs over the
    entries as they were when it started. *)
Definition cleanupDisconnectedUsers (now : string -> Z) : Svc unit :=
  let* entries := rooms_entries in
  for_each (cleanup_entry now) entries.

Definition _resetRoomStorageForTesting : Svc unit :=
  fun _ => (tt, empty_store).

(** ** Runs of the service *)

(** One call of a state-changing export, with the values the call draws
    from its environment. *)
Inductive Op : Type :=
| CreateRoom (attempts : list (nat -> Q)) (uuid : string) (now : Z)
    (host : User.t) (maxPlayers : option Z)
| JoinRoom (now : Z) (roomCode : string) (user : User.t)
| LeaveRoom (now : Z) (roomCode userId : string)
| StartGame (r : Q) (now : Z) (roomCode userId : string)
| UpdateUserConnection (now : Z) (roomId userId : string)
    (isConnected : bool) (socketId : option string)
| CleanupDisconnectedUsers (now : string -> Z).

Definition run (o : Op) (s : Store) : Store :=
  match o with
  | CreateRoom attempts uuid now host maxPlayers =>
      after (createRoom attempts uuid now host maxPlayers) s
  | JoinRoom now roomCode user => after (joinRoom now roomCode user) s
  | LeaveRoom now roomCode userId => after (leaveRoom now roomCode userId) s
  | StartGame r now roomCode userId =>
      after (startGame r now roomCode userId) s
  | UpdateUserConnection now roomId userId isConnected socketId =>
      after (updateUserConnection now roomId userId isConnected socketId) s
  | CleanupDisconnectedUsers now => after (cleanupDisconnectedUsers now) s
  end.

(** What the environment guarantees: [uuidv4()] returns an id no stored
    room has. *)
Definition uuid_fresh (s : Store) (o : Op) : Prop :=
  match o with
  | CreateRoom _ uuid _ _ _ => JsMap.get uuid (rooms s) = None
  | _ => True
  end.

(** The calls that create a room or change its membership, with a capacity
    of at least one player. *)
Definition membership_op (o : Op) : Prop :=
  match o with
  | CreateRoom _ _ _ _ maxPlayers => 1 <= default 10 maxPlayers
  | JoinRoom _ _ _ | LeaveRoom _ _ _ => True
  | _ => False
  end.

(** Stores the service reaches from the empty one through calls that
    satisfy [allowed]. *)
Inductive reachable_by (allowed : Op -> Prop) : Store -> Prop :=
| reachable_empty : reachable_by allowed empty_store
| reachable_run s o :
    reachable_by allowed s -> allowed o -> uuid_fresh s o ->
    reachable_by allowed (run o s).

Definition reachable : Store -> Prop := reachable_by (fun _ => True).

Definition run_all (ops : list Op) (s : Store) : Store :=
  fold_left (fun s o => run o s) ops s.

(** ** Rooms one call at a time

    The room a call writes back, as a function of the room it found. *)

Definition lookup (code : string) (s : Store) : option Room.t :=
  result (getRoomByCode code) s.

Definition joined_players (user : User.t) (players : list User.t)
    : list User.t :=
  match findIndex (has_id (User.id user)) players with
  | Some i =>
      match players !! i with
      | Some existing => <[i := refresh_user existing user]> players
      | None => players
      end
  | None => (players ++ [connect_user user])%list
  end.

Definition joined (now : Z) (user : User.t) (room : Room.t) : Room.t :=
  Room.with_updatedAt now
    (Room.with_players (joined_players user (Room.players room)) room).

(** [room] after the host hand-over of [leaveRoom]. *)
Definition handed_over (userId : string) (room : Room.t) : Room.t :=
  if String.eqb (Room.hostId room) userId
     && (1 <? length (Room.players room))%nat
  then
    match List.find (fun p => negb (has_id userId p) && User.isConnected p)
                    (Room.players room) with
    | Some newHost => Room.with_hostId (User.id newHost) room
    | None => room
    end
  else room.

Definition remaining (userId : string) (players : list User.t)
    : list User.t :=
  List.filter (fun p => negb (has_id userId p)) players.

Definition departed (userId : string) (room : Room.t) : Room.t :=
  Room.with_players
    (remaining userId (Room.players (handed_over userId room)))
    (handed_over userId room).

Definition started (r : Q) (now : Z) (room : Room.t) : Room.t :=
  Room.with_updatedAt now
    (Room.with_theme (js_index themes (random_index r (length themes)))
       (Room.with_status COMPOSING room)).

Definition reconnected_players (userId : string) (isConnected : bool)
    (socketId : option string) (players : list User.t) : list User.t :=
  match findIndex (has_id userId) players with
  | Some userIndex =>
      match players !! userIndex with
      | Some p =>
          <[userIndex :=
              User.mk (User.id p) (User.username p) (User.avatar p)
                isConnected
                (if isConnected
                 then match socketId with
                      | Some sid => Defined sid
                      | None => Undefined
                      end
                 else Undefined)]> players
      | None => players
      end
  | None => players
  end.

Definition reconnected (now : Z) (userId : string) (isConnected : bool)
    (socketId : option string) (room : Room.t) : Room.t :=
  Room.with_updatedAt now
    (Room.with_players
       (reconnected_players userId isConnected socketId (Room.players room))
       room).

(** [room] after a cleanup round that removed somebody and left somebody. *)
Definition cleaned (now : Z) (room : Room.t) : Room.t :=
  let room :=
    Room.with_updatedAt now
      (Room.with_players (List.filter User.isConnected (Room.players room))
         room) in
  if negb (existsb (has_id (Room.hostId room)) (Room.players room))
  then
    match Room.players room with
    | first :: _ => Room.with_hostId (User.id first) room
    | [] => room
    end
  else room.

(** The room a call creates. *)
Inductive creates : Op -> Room.t -> Prop :=
| creates_room attempts uuid now host maxPlayers roomCode :
    creates (CreateRoom attempts uuid now host maxPlayers)
      (Room.mk uuid roomCode WAITING (User.id host) [host]
         (default 10 maxPlayers) None now now).

(** The room a call writes back in place of the room it found. *)
Inductive evolves : Op -> Room.t -> Room.t -> Prop :=
| evolves_join now roomCode user room :
    Z.of_nat (length (Room.players room)) < Room.maxPlayers room ->
    Room.status room = WAITING ->
    evolves (JoinRoom now roomCode user) room (joined now user room)
| evolves_leave now roomCode userId room :
    Room.players (departed userId room) <> [] ->
    evolves (LeaveRoom now roomCode userId) room
      (Room.with_updatedAt now (departed userId room))
| evolves_start r now roomCode userId room :
    evolves (StartGame r now roomCode userId) room (started r now room)
| evolves_connection now roomId userId isConnected socketId room :
    evolves (UpdateUserConnection now roomId userId isConnected socketId)
      room (reconnected now userId isConnected socketId room)
| evolves_cleanup now room :
    List.filter User.isConnected (Room.players room) <> [] ->
    evolves (CleanupDisconnectedUsers now) room
      (cleaned (now (Room.id room)) room).

(** ** Invariants of the store *)

Definition unique_ids (players : list User.t) : Prop :=
  List.NoDup (map User.id players).

Record room_ok (r : Room.t) : Prop := mk_room_ok {
  ok_ids : unique_ids (Room.players r);
  ok_nonempty : Room.players r <> [];
  ok_phase : (phase (Room.status r) <= 1)%nat
}.

Record store_ok (s : Store) : Prop := mk_store_ok {
  ok_keys : List.NoDup (JsMap.keys (rooms s));
  ok_key_id : forall k r, In (k, r) (rooms s) -> Room.id r = k;
  ok_rooms : forall k r, In (k, r) (rooms s) -> room_ok r
}.



(** The symbols of the code alphabet. *)
Definition alphabet : list ascii := list_ascii_of_string characters.

(** What [Math.random()] guarantees for the six draws of one code. *)
Definition unit_draws (rand : nat -> Q) : Prop :=
  forall i, (i < 6)%nat -> (0 <= rand i /\ rand i < 1)%Q.

(** A symbol [generateRoomCode] can put into a code. *)
Definition producible (c : ascii) : Prop :=
  exists rand i,
    unit_draws rand /\ (i < 6)%nat
    /\ String.get i (generateRoomCode rand) = Some c.

(** The view [getGameState] builds from a room. *)
Definition view (room : Room.t) : GameState.t :=
  GameState.mk (Room.id room) (Room.status room) (Room.theme room)
    match Room.status room with
    | COMPOSING => Some 300
    | VOTING => Some 120
    | WAITING | RESULTS => None
    end.

(** ** Sample data *)

Definition draws (a b c d e f : Z) : nat -> Q := fun i =>
  match i with
  | 0%nat => a # 32 | 1%nat => b # 32 | 2%nat => c # 32
  | 3%nat => d # 32 | 4%nat => e # 32 | _ => f # 32
  end%Q.

(** The draws of the code ABC234. *)
Definition draws_ABC234 : nat -> Q := draws 0 1 2 24 25 26.

Definition host_H : User.t := User.mk "host-id" "Host" Absent true Absent.
Definition user_P : User.t := User.mk "user-id" "User" Absent true Absent.
Definition user_P_again : User.t :=
  User.mk "user-id" "Updated User" Absent false (Defined "socket-2").

Definition create_H (maxPlayers : option Z) : Op :=
  CreateRoom [draws_ABC234] "uuid-1" 1000 host_H maxPlayers.

(** Room ABC234 with the host alone. *)
Definition room_created : Store := run (create_H None) empty_store.

(** Room ABC234 with the host and one guest. *)
Definition room_joined : Store :=
  run (JoinRoom 1001 "ABC234" user_P) room_created.

(** The same room once the guest has lost its connection. *)
Definition room_guest_offline : Store :=
  run (UpdateUserConnection 1002 "uuid-1" "user-id" false None) room_joined.

(** The same room once the host has started the game. *)
Definition room_started : Store :=
  run (StartGame (1 # 2) 1002 "ABC234" "host-id") room_joined.

(** Room ABC234 with a capacity of one, and with a capacity of zero. *)
Definition room_full : Store := run (create_H (Some 1)) empty_store.

(** Three rooms created at times 1000, 3000 and 2000. *)
Definition three_rooms : Store :=
  run_all
    [ CreateRoom [draws 0 1 2 24 25 26] "uuid-1" 1000 host_H None;
      CreateRoom [draws 3 4 5 27 28 29] "uuid-2" 3000 host_H None;
      CreateRoom [draws 6 7 8 30 31 24] "uuid-3" 2000 host_H (Some 1) ]
    empty_store.

(** ** Further invariants and callers *)

(** The two maps agree: a stored room is indexed by its code, and an
    indexed code leads to a stored room with that code. *)
Record index_ok (s : Store) : Prop := mk_index_ok {
  ok_code_of_room : forall k r,
    JsMap.get k (rooms s) = Some r -> roomsByCode s !! Room.code r = Some k;
  ok_room_of_code : forall c k,
    roomsByCode s !! c = Some k ->
    exists r, JsMap.get k (rooms s) = Some r /\ Room.code r = c
}.

(** What the environment guarantees to [createRoom]: draws in [0, 1) and
    a non-empty uuid. *)
Definition well_drawn (o : Op) : Prop :=
  match o with
  | CreateRoom attempts uuid _ _ _ =>
      (forall rand, In rand attempts -> unit_draws rand) /\ uuid <> ""
  | _ => True
  end.

(** What a cleanup round leaves of a room: the room itself when everybody
    is connected, nothing when nobody is, and the cleaned room otherwise. *)
Definition swept (t : Z) (room : Room.t) : option Room.t :=
  let kept := List.filter User.isConnected (Room.players room) in
  if (length kept =? length (Room.players room))%nat then Some room
  else if (length kept =? 0)%nat then None
  else Some (cleaned t room).

(** The host of the room is one of its members. *)
Definition host_is_member (room : Room.t) : Prop :=
  In (Room.hostId room) (map User.id (Room.players room)).

(** ** controllers/socketController.ts

    A handler is a computation of the service monad that returns what it
    does to the sockets, in order. The handlers run inside [try]/[catch];
    no call of the service throws on a payload of its declared type, so the
    [catch] branches are left out, and so is logging. *)

Inductive SocketEvents : Type :=
| CONNECT | DISCONNECT | JOIN_ROOM | LEAVE_ROOM | CREATE_ROOM | ROOM_CREATED
| ROOM_UPDATED | GAME_STATE_UPDATED | START_GAME | COMPOSITION_UPDATED
| SUBMIT_VOTE | RESULTS_UPDATED | ERROR.

(** [socket.emit] reaches the socket of the request, [io.to(id).emit] the
    sockets that joined the channel [id]. *)
Inductive Target : Type :=
| ToSocket (socketId : string)
| ToRoom (roomId : string).

Inductive Payload : Type :=
| RoomPayload (room : Room.t)
| GameStatePayload (gameState : GameState.t)
| ErrorResponse (code message : string).

Inductive Effect : Type :=
| SocketJoin (socketId roomId : string)
| SocketLeave (socketId roomId : string)
| Emit (target : Target) (event : SocketEvents) (payload : Payload).

(** [{...user, id: user.id || uuidv4(), isConnected: true,
      socketId: socket.id}] *)
Definition socket_user (socketId uuid : string) (user : User.t) : User.t :=
  User.mk (if String.eqb (User.id user) "" then uuid else User.id user)
    (User.username user) (User.avatar user) true (Defined socketId).

(** The handler of [create_room]. It returns nothing while the loop of
    [createRoom] is still running. *)
Definition onCreateRoom (socketId userUuid : string)
    (attempts : list (nat -> Q)) (roomUuid : string) (now : Z)
    (payloadUser : User.t) (payloadMaxPlayers : option Z)
    : Svc (list Effect) :=
  let user := socket_user socketId userUuid payloadUser in
  let* room := createRoom attempts roomUuid now user payloadMaxPlayers in
  match room with
  | None => ret []
  | Some room =>
      ret [ SocketJoin socketId (Room.id room);
            Emit (ToSocket socketId) ROOM_CREATED (RoomPayload room);
            Emit (ToRoom (Room.id room)) ROOM_UPDATED (RoomPayload room) ]
  end.

(** The handler of [join_room]. *)
Definition onJoinRoom (socketId userUuid : string) (now : Z)
    (roomCode : string) (user : User.t) : Svc (list Effect) :=
  let updatedUser := socket_user socketId userUuid user in
  let* room := joinRoom now roomCode updatedUser in
  match room with
  | None =>
      ret [ Emit (ToSocket socketId) ERROR
              (ErrorResponse "JOIN_ROOM_ERROR"
                 "Failed to join room. Room may not exist, be full, or game already started.") ]
  | Some room =>
      let* state :=
        if negb (RoomStatus_eqb (Room.status room) WAITING) then
          let* gameState := getGameState (Room.id room) in
          match gameState with
          | Some gameState =>
              ret [ Emit (ToSocket socketId) GAME_STATE_UPDATED
                      (GameStatePayload gameState) ]
          | None => ret []
          end
        else ret [] in
      ret ([ SocketJoin socketId (Room.id room);
             Emit (ToRoom (Room.id room)) ROOM_UPDATED (RoomPayload room) ]
           ++ state)%list
  end.

(** The handler of [leave_room]. *)
Definition onLeaveRoom (socketId : string) (now : Z)
    (roomCode userId : string) : Svc (list Effect) :=
  let* roomBefore := getRoomByCode roomCode in
  match roomBefore with
  | None =>
      ret [ Emit (ToSocket socketId) ERROR
              (ErrorResponse "LEAVE_ROOM_ERROR" "Room not found") ]
  | Some roomBefore =>
      let* room := leaveRoom now roomCode userId in
      ret (SocketLeave socketId (Room.id roomBefore)
           :: match room with
              | Some room =>
                  [ Emit (ToRoom (Room.id room)) ROOM_UPDATED
                      (RoomPayload room) ]
              | None => []
              end)
  end.

(** The handler of [start_game]. *)
Definition onStartGame (socketId : string) (r : Q) (now : Z)
    (roomCode userId : string) : Svc (list Effect) :=
  let* room := startGame r now roomCode userId in
  match room with
  | None =>
      ret [ Emit (ToSocket socketId) ERROR
              (ErrorResponse "START_GAME_ERROR"
                 "Failed to start game. You may not be the host or there are not enough players.") ]
  | Some room =>
      let* gameState := getGameState (Room.id room) in
      ret (Emit (ToRoom (Room.id room)) ROOM_UPDATED (RoomPayload room)
           :: match gameState with
              | Some gameState =>
                  [ Emit (ToRoom (Room.id room)) GAME_STATE_UPDATED
                      (GameStatePayload gameState) ]
              | None => []
              end)
  end.

(** ** beatbattles/lib/utils/roomUtils.ts, the client's copy *)

Module Client.
(** A JavaScript number as the loop test reads it: a finite value, which
    is a rational, or one of the three that are not. *)
Inductive number : Type :=
| NaN
| PosInfinity
| NegInfinity
| Finite (q : Q).

(** [i < length] for the counter [i] of the loop. *)
Definition less_than (i : nat) (length : number) : bool :=
  match length with
  | NaN | NegInfinity => false
  | PosInfinity => true
  | Finite q => negb (Qle_bool q (inject_Z (Z.of_nat i)))
  end.

(** The [for] loop from the counter [i] on. [None] is a loop that is still
    running after [fuel] rounds. Strings have no greatest length here,
    where a JavaScript engine throws a [RangeError] past its own. *)
Fixpoint generateRoomCode_loop (fuel : nat) (length : number)
    (rand : nat -> Q) (i : nat) (result : string) {struct fuel}
  : option string :=
  if less_than i length then
    match fuel with
    | O => None
    | S fuel =>
        let randomIndex := random_index (rand i) (String.length characters) in
        generateRoomCode_loop fuel length rand (S i)
          (result ++ charAt characters randomIndex)
    end
  else Some result.

(** [length] is the optional parameter, 6 when left out. *)
Definition generateRoomCode (fuel : nat) (length : option number)
    (rand : nat -> Q) : option string :=
  let length := default (Finite 6) length in
  generateRoomCode_loop fuel length rand 0 "".

(** [code.length] throws a [TypeError] on [null] and [undefined]; [None]
    stands for it. *)
Definition formatRoomCode (code : JsString) : option JsString :=
  match code with
  | JsNull | JsUndefined => None
  | JsStr s =>
      if negb (String.length s =? 6)%nat then Some code
      else Some (JsStr (slice s 0 3 ++ "-" ++ slice_from s 3))
  end.
End Client.

(** * Properties *)

(** ** Room codes: the draws *)

Lemma Qfloor_interval (x : Q) (k : Z) :
  Qfloor x = k <-> (inject_Z k <= x /\ x < inject_Z (k + 1))%Q.
Proof.
  split.
  - intros <-. split; [apply Qfloor_le | apply Qlt_floor].
  - intros [Hlo Hhi].
    pose proof (Qfloor_resp_le _ _ Hlo) as H1. rewrite Qfloor_Z in H1.
    pose proof (Qfloor_le x) as H2.
    assert (H3 : (inject_Z (Qfloor x) < inject_Z (k + 1))%Q)
      by (eapply Qle_lt_trans; eassumption).
    rewrite <- Zlt_Qlt in H3. lia.
Qed.

Lemma random_index_interval (r : Q) (k : Z) :
  random_index r 32 = k <-> (k # 32 <= r /\ r < (k + 1) # 32)%Q.
Proof.
  unfold random_index, Math_floor. rewrite Qfloor_interval.
  change (inject_Z (Z.of_nat 32)) with (32 # 1)%Q.
  unfold inject_Z, Qle, Qlt, Qmult; simpl. lia.
Qed.

Lemma random_index_range (r : Q) :
  (0 <= r /\ r < 1)%Q -> 0 <= random_index r 32 < 32.
Proof.
  intros [Hlo Hhi].
  destruct (proj1 (random_index_interval r _) eq_refl) as [H1 H2].
  revert Hlo Hhi H1 H2. generalize (random_index r 32) as k. intros k.
  destruct r as [n d]. unfold Qle, Qlt; simpl.
  pose proof (Pos2Z.is_pos d). nia.
Qed.

Lemma string_get_In (s : string) (n : nat) (c : ascii) :
  String.get n s = Some c -> In c (list_ascii_of_string s).
Proof.
  revert n. induction s as [|a s IH]; intros [|n] H; simpl in *; try discriminate.
  - left. congruence.
  - right. eauto.
Qed.

(** Every index below 32 selects one character of the class [A-Z0-9]. *)
Lemma charAt_characters (k : Z) :
  0 <= k < 32 ->
  exists c, charAt characters k = String c ""
            /\ String.get (Z.to_nat k) characters = Some c
            /\ upper_or_digit c = true.
Proof.
  intros Hk.
  assert (Hn : exists n, k = Z.of_nat n /\ (n < 32)%nat)
    by (exists (Z.to_nat k); lia).
  destruct Hn as (n & -> & Hn).
  do 32 (destruct n as [|n];
         [ eexists; split; [ reflexivity | split; reflexivity ] | ]).
  lia.
Qed.

Lemma generateRoomCode_chars (rand : nat -> Q) :
  unit_draws rand ->
  exists c0 c1 c2 c3 c4 c5,
    generateRoomCode rand
    = String c0 (String c1 (String c2 (String c3 (String c4 (String c5 "")))))
    /\ Forall2 (fun i c =>
                  String.get (Z.to_nat (random_index (rand i) 32)) characters
                  = Some c /\ upper_or_digit c = true)
               (seq 0 6) [c0; c1; c2; c3; c4; c5].
Proof.
  intros Hr.
  assert (H : forall i, (i < 6)%nat ->
     exists c, charAt characters (random_index (rand i) 32) = String c ""
       /\ String.get (Z.to_nat (random_index (rand i) 32)) characters = Some c
       /\ upper_or_digit c = true).
  { intros i Hi. apply charAt_characters, random_index_range, Hr, Hi. }
  destruct (H 0%nat) as (c0 & E0 & G0); [lia|].
  destruct (H 1%nat) as (c1 & E1 & G1); [lia|].
  destruct (H 2%nat) as (c2 & E2 & G2); [lia|].
  destruct (H 3%nat) as (c3 & E3 & G3); [lia|].
  destruct (H 4%nat) as (c4 & E4 & G4); [lia|].
  destruct (H 5%nat) as (c5 & E5 & G5); [lia|].
  exists c0, c1, c2, c3, c4, c5. split.
  - unfold generateRoomCode. cbn [seq fold_left].
    change (String.length characters) with 32%nat.
    rewrite E0, E1, E2, E3, E4, E5. reflexivity.
  - repeat constructor; tauto.
Qed.

Lemma generateRoomCode_symbols (rand : nat -> Q) :
  unit_draws rand ->
  String.length (generateRoomCode rand) = 6%nat
  /\ (forall i, (i < 6)%nat ->
        exists c, String.get i (generateRoomCode rand) = Some c
                  /\ String.get (Z.to_nat (random_index (rand i) 32)) characters = Some c
                  /\ In c alphabet)
  /\ isValidRoomCode (generateRoomCode rand) = true.
Proof.
  intros Hr.
  destruct (generateRoomCode_chars rand Hr)
    as (c0 & c1 & c2 & c3 & c4 & c5 & -> & HF).
  repeat match goal with
         | H : Forall2 _ _ _ |- _ => inversion H; subst; clear H
         end.
  repeat match goal with H : _ /\ _ |- _ => destruct H end.
  split; [reflexivity|]. split.
  - intros i Hi.
    do 6 (destruct i as [|i];
          [ eexists; split; [reflexivity | split; [eassumption | eapply string_get_In; eassumption]] | ]).
    lia.
  - unfold isValidRoomCode. cbn.
    repeat match goal with H : upper_or_digit _ = true |- _ => rewrite H; clear H end.
    reflexivity.
Qed.

(** ** The insertion-ordered map *)

Section JsMapFacts.
Context {V : Type}.
Implicit Types (m : JsMap.t V) (k : string) (v : V).

Lemma get_set k k' v m :
  JsMap.get k' (JsMap.set k v m)
  = if String.eqb k' k then Some v else JsMap.get k' m.
Proof.
  induction m as [|[k0 v0] m IH]; simpl.
  - reflexivity.
  - destruct (String.eqb_spec k k0) as [->|Hk]; simpl.
    + destruct (String.eqb k' k0); reflexivity.
    + rewrite IH. destruct (String.eqb_spec k' k0) as [->|]; [|reflexivity].
      destruct (String.eqb_spec k0 k); congruence.
Qed.

Lemma get_delete k k' m :
  JsMap.get k' (JsMap.delete k m)
  = if String.eqb k' k then None else JsMap.get k' m.
Proof.
  induction m as [|[k0 v0] m IH]; simpl.
  - destruct (String.eqb k' k); reflexivity.
  - destruct (String.eqb_spec k k0) as [->|Hk]; simpl.
    + rewrite IH. destruct (String.eqb k' k0); reflexivity.
    + rewrite IH. destruct (String.eqb_spec k' k0) as [->|]; [|reflexivity].
      destruct (String.eqb_spec k0 k); congruence.
Qed.

Lemma get_In k v m : JsMap.get k m = Some v -> In (k, v) m.
Proof.
  induction m as [|[k0 v0] m IH]; simpl; [discriminate|].
  destruct (String.eqb_spec k k0) as [->|]; intros H.
  - left. congruence.
  - right. auto.
Qed.

Lemma In_keys k v m : In (k, v) m -> In k (JsMap.keys m).
Proof. intros H. apply (in_map fst) in H. exact H. Qed.

Lemma In_get k v m : List.NoDup (JsMap.keys m) -> In (k, v) m -> JsMap.get k m = Some v.
Proof.
  induction m as [|[k0 v0] m IH]; simpl; [tauto|].
  intros Hnd [H|H].
  - inversion H; subst. rewrite String.eqb_refl. reflexivity.
  - apply NoDup_cons_iff in Hnd as [Hnot Hnd].
    destruct (String.eqb_spec k k0) as [->|]; [|auto].
    exfalso. apply Hnot. eapply In_keys; eauto.
Qed.

Lemma In_set k v m k' v' :
  In (k', v') (JsMap.set k v m) -> In (k', v') m \/ (k' = k /\ v' = v).
Proof.
  induction m as [|[k0 v0] m IH]; simpl.
  - intros [H|[]]. inversion H; auto.
  - destruct (String.eqb_spec k k0) as [->|]; simpl; intros [H|H].
    + inversion H; auto.
    + auto.
    + auto.
    + destruct (IH H); auto.
Qed.

Lemma In_delete k m k' v' :
  In (k', v') (JsMap.delete k m) -> In (k', v') m.
Proof.
  induction m as [|[k0 v0] m IH]; simpl; [tauto|].
  destruct (String.eqb k k0); simpl; intuition.
Qed.

Lemma keys_set_incl k v m k' :
  In k' (JsMap.keys (JsMap.set k v m)) -> k' = k \/ In k' (JsMap.keys m).
Proof.
  unfold JsMap.keys. rewrite in_map_iff. intros ([k0 v0] & <- & H).
  apply In_set in H as [H|[-> _]]; [right|left; reflexivity].
  eapply In_keys; eauto.
Qed.

Lemma keys_set k v m : List.NoDup (JsMap.keys m) -> List.NoDup (JsMap.keys (JsMap.set k v m)).
Proof.
  induction m as [|[k0 v0] m IH]; simpl.
  - intros _. repeat constructor. simpl. tauto.
  - intros Hnd. apply NoDup_cons_iff in Hnd as [Hnot Hnd].
    destruct (String.eqb_spec k k0) as [->|Hk]; simpl.
    + apply NoDup_cons_iff; auto.
    + apply NoDup_cons_iff; split; [|auto].
      intros H. apply keys_set_incl in H as [H|H]; congruence.
Qed.

Lemma keys_delete k m : List.NoDup (JsMap.keys m) -> List.NoDup (JsMap.keys (JsMap.delete k m)).
Proof.
  induction m as [|[k0 v0] m IH]; simpl; [auto|].
  intros Hnd. apply NoDup_cons_iff in Hnd as [Hnot Hnd].
  destruct (String.eqb k k0); simpl; [auto|].
  apply NoDup_cons_iff; split; [|auto].
  unfold JsMap.keys. rewrite in_map_iff. intros ([k1 v1] & Hk & H).
  simpl in Hk; subst. apply In_delete in H. apply Hnot. eapply In_keys; eauto.
Qed.
End JsMapFacts.

(** ** The calls, unfolded *)

Lemma getRoomByCode_eq code s : getRoomByCode code s = (lookup code s, s).
Proof.
  unfold lookup, result, getRoomByCode, bind, roomsByCode_get, rooms_get, ret.
  destruct (isValidRoomCode code); simpl; [|reflexivity].
  destruct (roomsByCode s !! code) as [k|]; [|reflexivity].
  destruct (String.eqb k ""); reflexivity.
Qed.

Lemma lookup_Some code s room :
  lookup code s = Some room ->
  isValidRoomCode code = true
  /\ exists k, roomsByCode s !! code = Some k /\ JsMap.get k (rooms s) = Some room.
Proof.
  unfold lookup, result, getRoomByCode, bind, roomsByCode_get, rooms_get, ret.
  destruct (isValidRoomCode code); simpl; [|discriminate].
  destruct (roomsByCode s !! code) as [k|]; [|discriminate].
  destruct (String.eqb k ""); simpl; [discriminate|]. eauto.
Qed.

Lemma lookup_In code s room :
  lookup code s = Some room -> exists k, In (k, room) (rooms s).
Proof.
  intros H. apply lookup_Some in H as (_ & k & _ & H). eauto using get_In.
Qed.

Lemma joinRoom_eq now code user s :
  joinRoom now code user s =
  match lookup code s with
  | None => (None, s)
  | Some room =>
      if Z.of_nat (length (Room.players room)) >=? Room.maxPlayers room
      then (None, s)
      else if negb (RoomStatus_eqb (Room.status room) WAITING) then (None, s)
      else (Some (joined now user room),
            mkStore (JsMap.set (Room.id room) (joined now user room) (rooms s))
                    (roomsByCode s))
  end.
Proof.
  unfold joinRoom, bind. rewrite getRoomByCode_eq.
  destruct (lookup code s) as [room|]; [|reflexivity].
  destruct (_ >=? _); [reflexivity|].
  destruct (negb _); reflexivity.
Qed.

Lemma leaveRoom_eq now code userId s :
  leaveRoom now code userId s =
  match lookup code s with
  | None => (None, s)
  | Some room =>
      match findIndex (has_id userId) (Room.players room) with
      | None => (Some room, s)
      | Some _ =>
          if (length (Room.players (departed userId room)) =? 0)%nat
          then (None,
                mkStore (JsMap.delete (Room.id (departed userId room)) (rooms s))
                        (delete (Room.code (departed userId room)) (roomsByCode s)))
          else (Some (Room.with_updatedAt now (departed userId room)),
                mkStore (JsMap.set (Room.id (departed userId room))
                           (Room.with_updatedAt now (departed userId room))
                           (rooms s))
                        (roomsByCode s))
      end
  end.
Proof.
  unfold leaveRoom, bind. rewrite getRoomByCode_eq.
  destruct (lookup code s) as [room|]; [|reflexivity].
  destruct (findIndex _ _); [|reflexivity].
  fold (handed_over userId room).
  change (Room.with_players _ (handed_over userId room)) with (departed userId room).
  destruct (_ =? _)%nat; reflexivity.
Qed.

Lemma startGame_eq r now code userId s :
  startGame r now code userId s =
  match lookup code s with
  | None => (None, s)
  | Some room =>
      if negb (String.eqb (Room.hostId room) userId) then (None, s)
      else if (length (Room.players room) <? 2)%nat then (None, s)
      else (Some (started r now room),
            mkStore (JsMap.set (Room.id room) (started r now room) (rooms s))
                    (roomsByCode s))
  end.
Proof.
  unfold startGame, bind. rewrite getRoomByCode_eq.
  destruct (lookup code s) as [room|]; [|reflexivity].
  destruct (negb _); [reflexivity|].
  destruct (_ <? _)%nat; reflexivity.
Qed.

Lemma updateUserConnection_eq now roomId userId isConnected socketId s :
  updateUserConnection now roomId userId isConnected socketId s =
  match JsMap.get roomId (rooms s) with
  | None => (None, s)
  | Some room =>
      match findIndex (has_id userId) (Room.players room) with
      | None => (Some room, s)
      | Some _ =>
          (Some (reconnected now userId isConnected socketId room),
           mkStore (JsMap.set (Room.id room)
                      (reconnected now userId isConnected socketId room)
                      (rooms s))
                   (roomsByCode s))
      end
  end.
Proof.
  unfold updateUserConnection, getRoomById, rooms_get, bind.
  destruct (JsMap.get roomId (rooms s)) as [room|]; [|reflexivity].
  unfold reconnected, reconnected_players.
  destruct (findIndex _ _); reflexivity.
Qed.

Lemma unique_code_store attempts s : after (unique_code attempts) s = s.
Proof.
  induction attempts as [|rand rest IH]; [reflexivity|].
  unfold after in *. simpl. unfold bind, roomsByCode_has. simpl.
  destruct (bool_decide _); [apply IH | reflexivity].
Qed.

Lemma createRoom_eq attempts uuid now host maxPlayers s :
  createRoom attempts uuid now host maxPlayers s =
  match result (unique_code attempts) s with
  | None => (None, s)
  | Some roomCode =>
      let room := Room.mk uuid roomCode WAITING (User.id host) [host]
                    (default 10 maxPlayers) None now now in
      (Some room,
       mkStore (JsMap.set uuid room (rooms s)) (<[roomCode := uuid]> (roomsByCode s)))
  end.
Proof.
  unfold createRoom, bind, result.
  pose proof (unique_code_store attempts s) as Hs. unfold after in Hs.
  destruct (unique_code attempts s) as [c s']. simpl in *. subst s'.
  destruct c; reflexivity.
Qed.

(** ** Lists of players *)

Lemma has_id_true userId p : has_id userId p = true <-> User.id p = userId.
Proof. unfold has_id. apply String.eqb_eq. Qed.

Lemma has_id_false userId p : has_id userId p = false <-> User.id p <> userId.
Proof. unfold has_id. apply String.eqb_neq. Qed.

Section FindIndex.
Context {A : Type} (f : A -> bool).

Lemma findIndex_Some (l : list A) (i : nat) :
  findIndex f l = Some i ->
  exists x, l !! i = Some x /\ f x = true
            /\ List.find f l = Some x
            /\ forall j y, (j < i)%nat -> l !! j = Some y -> f y = false.
Proof.
  revert i. induction l as [|a l IH]; simpl; intros i; [discriminate|].
  destruct (f a) eqn:Ea.
  - intros [= <-]. exists a. repeat split; auto. intros j y Hj. lia.
  - destruct (findIndex f l) as [i'|]; simpl; [|discriminate].
    intros [= <-]. destruct (IH i' eq_refl) as (x & Hx & Hf & Hfind & Hlt).
    exists x. repeat split; auto.
    intros [|j] y Hj; simpl.
    + intros [= <-]. assumption.
    + apply Hlt. lia.
Qed.

Lemma findIndex_None (l : list A) :
  findIndex f l = None <-> forall x, In x l -> f x = false.
Proof.
  induction l as [|a l IH]; simpl.
  - split; [intros _ x [] | reflexivity].
  - destruct (f a) eqn:Ea.
    + split; [discriminate|]. intros H. specialize (H a (or_introl eq_refl)). congruence.
    + destruct (findIndex f l); simpl.
      * split; [discriminate|]. intros H.
        assert (Some n = None :> option nat); [|discriminate].
        apply IH. intros x Hx. apply H. auto.
      * split; [|reflexivity]. intros _ x [<-|Hx]; [assumption|].
        apply IH; auto.
Qed.
End FindIndex.

Lemma map_id_insert (l : list User.t) (i : nat) (old new : User.t) :
  l !! i = Some old -> User.id new = User.id old ->
  map User.id (<[i := new]> l) = map User.id l.
Proof.
  revert i. induction l as [|a l IH]; intros [|i]; simpl; try discriminate.
  - intros [= ->] ->. reflexivity.
  - intros H E. f_equal. apply IH; assumption.
Qed.

Lemma unique_ids_filter (f : User.t -> bool) (l : list User.t) :
  unique_ids l -> unique_ids (List.filter f l).
Proof.
  unfold unique_ids. induction l as [|a l IH]; simpl; [auto|].
  intros H. apply NoDup_cons_iff in H as [Hnot H].
  destruct (f a); simpl; [|auto].
  apply NoDup_cons_iff. split; [|auto].
  rewrite in_map_iff in *. intros (x & Hx & Hin).
  apply filter_In in Hin as [Hin _]. eauto.
Qed.

Lemma unique_ids_joined (user : User.t) (l : list User.t) :
  unique_ids l -> unique_ids (joined_players user l).
Proof.
  unfold unique_ids, joined_players. intros H.
  destruct (findIndex _ l) as [i|] eqn:E.
  - apply findIndex_Some in E as (x & Hx & Hf & _).
    rewrite Hx. erewrite map_id_insert; eauto.
    simpl. symmetry. apply has_id_true. assumption.
  - rewrite map_app. simpl.
    apply List.NoDup_app; auto.
    + repeat constructor. simpl. tauto.
    + intros a Ha [<-|[]].
      apply in_map_iff in Ha as (p & Hp & Hin).
      pose proof (proj1 (findIndex_None _ l) E p Hin) as Hfalse.
      apply has_id_false in Hfalse. congruence.
Qed.

Lemma length_joined (user : User.t) (l : list User.t) :
  (length l <= length (joined_players user l) <= S (length l))%nat.
Proof.
  unfold joined_players.
  destruct (findIndex _ l) as [i|].
  - destruct (l !! i); [rewrite length_insert|]; lia.
  - rewrite length_app. simpl. lia.
Qed.

Lemma map_id_reconnected userId isConnected socketId (l : list User.t) :
  map User.id (reconnected_players userId isConnected socketId l) = map User.id l.
Proof.
  unfold reconnected_players.
  destruct (findIndex _ l) as [i|]; [|reflexivity].
  destruct (l !! i) as [p|] eqn:E; [|reflexivity].
  eapply map_id_insert; eauto.
Qed.

Lemma players_handed_over userId room :
  Room.players (handed_over userId room) = Room.players room.
Proof.
  unfold handed_over.
  destruct (_ && _); [|reflexivity]. destruct (List.find _ _); reflexivity.
Qed.

Lemma status_handed_over userId room :
  Room.status (handed_over userId room) = Room.status room.
Proof.
  unfold handed_over.
  destruct (_ && _); [|reflexivity]. destruct (List.find _ _); reflexivity.
Qed.

Lemma maxPlayers_handed_over userId room :
  Room.maxPlayers (handed_over userId room) = Room.maxPlayers room.
Proof.
  unfold handed_over.
  destruct (_ && _); [|reflexivity]. destruct (List.find _ _); reflexivity.
Qed.

Lemma id_handed_over userId room :
  Room.id (handed_over userId room) = Room.id room.
Proof.
  unfold handed_over.
  destruct (_ && _); [|reflexivity]. destruct (List.find _ _); reflexivity.
Qed.

Lemma players_departed userId room :
  Room.players (departed userId room) = remaining userId (Room.players room).
Proof. unfold departed. simpl. rewrite players_handed_over. reflexivity. Qed.

Lemma players_cleaned now room :
  Room.players (cleaned now room)
  = List.filter User.isConnected (Room.players room).
Proof.
  unfold cleaned. simpl. destruct (negb _); [|reflexivity].
  destruct (List.filter _ _); reflexivity.
Qed.

Lemma status_cleaned now room :
  Room.status (cleaned now room) = Room.status room.
Proof.
  unfold cleaned. simpl. destruct (negb _); [|reflexivity].
  destruct (List.filter _ _); reflexivity.
Qed.


Lemma id_cleaned now room : Room.id (cleaned now room) = Room.id room.
Proof.
  unfold cleaned. simpl. destruct (negb _); [|reflexivity].
  destruct (List.filter _ _); reflexivity.
Qed.

(** ** What a call does to one room *)

Lemma evolves_id o r r' : evolves o r r' -> Room.id r' = Room.id r.
Proof.
  destruct 1; simpl; auto using id_handed_over, id_cleaned.
Qed.


Lemma evolves_phase o r r' :
  evolves o r r' -> (phase (Room.status r) <= 1)%nat ->
  (phase (Room.status r) <= phase (Room.status r') <= 1)%nat.
Proof.
  destruct 1; simpl; rewrite ?status_handed_over, ?status_cleaned; lia.
Qed.

Lemma evolves_ok o r r' : evolves o r r' -> room_ok r -> room_ok r'.
Proof.
  intros Hev [Hids Hne Hph].
  pose proof (evolves_phase _ _ _ Hev Hph) as Hph'.
  split; [| |lia]; clear Hph'; destruct Hev; simpl in *.
  - apply unique_ids_joined; assumption.
  - rewrite players_handed_over. apply unique_ids_filter; assumption.
  - assumption.
  - unfold unique_ids. rewrite map_id_reconnected. assumption.
  - rewrite players_cleaned. apply unique_ids_filter; assumption.
  - pose proof (length_joined user (Room.players room)).
    destruct (Room.players room); [congruence|].
    destruct (joined_players _ _); simpl in *; [lia|congruence].
  - assumption.
  - assumption.
  - intros E. apply (f_equal (map User.id)) in E.
    rewrite map_id_reconnected in E. destruct (Room.players room); [congruence|discriminate].
  - rewrite players_cleaned. assumption.
Qed.

Lemma creates_ok o r : creates o r -> room_ok r.
Proof.
  destruct 1. split; simpl; [|discriminate|lia].
  repeat constructor. simpl. tauto.
Qed.

Lemma length_filter_le {A : Type} (f : A -> bool) (l : list A) :
  (length (List.filter f l) <= length l)%nat.
Proof. induction l; simpl; [lia|]. destruct (f a); simpl; lia. Qed.


(** ** What a call does to the store *)

Lemma cleanup_entry_eq now k room s :
  cleanup_entry now (k, room) s =
  let kept := List.filter User.isConnected (Room.players room) in
  if negb (length kept =? length (Room.players room))%nat then
    if (length kept =? 0)%nat
    then (tt, mkStore (JsMap.delete k (rooms s))
                      (delete (Room.code room) (roomsByCode s)))
    else (tt, mkStore (JsMap.set k (cleaned (now k) room) (rooms s))
                      (roomsByCode s))
  else (tt, s).
Proof.
  unfold cleanup_entry. cbn zeta.
  destruct (negb _); [|reflexivity]. simpl.
  destruct (_ =? 0)%nat; reflexivity.
Qed.

Lemma length_zero_iff {A : Type} (l : list A) :
  (length l =? 0)%nat = true <-> l = [].
Proof. destruct l; simpl; split; congruence. Qed.

(** The rooms of the store after a call: untouched, created, or written
    back in place of a room that was there under the same key. *)
Definition entry_origin (o : Op) (before : JsMap.t Room.t)
    (k : string) (r' : Room.t) : Prop :=
  In (k, r') before
  \/ (creates o r' /\ k = Room.id r')
  \/ (exists r, In (k, r) before /\ evolves o r r').

Lemma after_for_each_cons {A : Type} (f : A -> Svc unit) x l s :
  after (for_each f (x :: l)) s = after (for_each f l) (after (f x) s).
Proof.
  unfold after. cbn [for_each]. unfold bind. destruct (f x s). reflexivity.
Qed.

Lemma after_cleanup_entry now k room s :
  rooms (after (cleanup_entry now (k, room)) s) = rooms s
  \/ rooms (after (cleanup_entry now (k, room)) s) = JsMap.delete k (rooms s)
  \/ (List.filter User.isConnected (Room.players room) <> []
      /\ rooms (after (cleanup_entry now (k, room)) s)
         = JsMap.set k (cleaned (now k) room) (rooms s)).
Proof.
  unfold after. rewrite cleanup_entry_eq. cbn zeta.
  destruct (negb _); [|auto].
  destruct (length _ =? 0)%nat eqn:E0; simpl; [auto|].
  right; right. split; [|reflexivity].
  intros E. rewrite E in E0. discriminate.
Qed.

Lemma cleanup_loop_keys now (entries : list (string * Room.t)) :
  forall s,
    List.NoDup (JsMap.keys (rooms s)) ->
    List.NoDup (JsMap.keys (rooms (after (for_each (cleanup_entry now) entries) s))).
Proof.
  induction entries as [|[k0 r0] entries IH]; intros s Hnd; [exact Hnd|].
  rewrite after_for_each_cons. apply IH.
  destruct (after_cleanup_entry now k0 r0 s) as [->|[->|[_ ->]]];
    auto using keys_set, keys_delete.
Qed.

Lemma cleanup_loop_origin now (before entries : list (string * Room.t)) :
  (forall k r, In (k, r) before -> Room.id r = k) ->
  forall s,
    (forall k r, In (k, r) entries -> In (k, r) before) ->
    (forall k r', In (k, r') (rooms s) ->
                  entry_origin (CleanupDisconnectedUsers now) before k r') ->
    forall k r',
      In (k, r') (rooms (after (for_each (cleanup_entry now) entries) s)) ->
      entry_origin (CleanupDisconnectedUsers now) before k r'.
Proof.
  intros Hid.
  induction entries as [|[k0 r0] entries IH]; intros s Hsub Hs; [exact Hs|].
  intros k r'. rewrite after_for_each_cons. apply IH.
  - intros k1 r1 H. apply Hsub. right. assumption.
  - clear k r'. intros k r'.
    destruct (after_cleanup_entry now k0 r0 s) as [->|[->|[Hne ->]]]; intros H.
    + auto.
    + apply In_delete in H. auto.
    + apply In_set in H as [H|[-> ->]]; [auto|].
      assert (Hin : In (k0, r0) before) by (apply Hsub; left; reflexivity).
      right; right. exists r0. split; [exact Hin|].
      rewrite <- (Hid _ _ Hin). constructor. assumption.
Qed.

Lemma run_keys o s :
  List.NoDup (JsMap.keys (rooms s)) -> List.NoDup (JsMap.keys (rooms (run o s))).
Proof.
  intros Hnd. destruct o; unfold run, after.
  - rewrite createRoom_eq. destruct (result _ _); simpl; auto using keys_set.
  - rewrite joinRoom_eq. repeat case_match; simpl; auto using keys_set.
  - rewrite leaveRoom_eq. repeat case_match; simpl; auto using keys_set, keys_delete.
  - rewrite startGame_eq. repeat case_match; simpl; auto using keys_set.
  - rewrite updateUserConnection_eq. repeat case_match; simpl; auto using keys_set.
  - unfold cleanupDisconnectedUsers, bind, rooms_entries.
    apply (cleanup_loop_keys now (rooms s) s). assumption.
Qed.

Lemma run_entries o s k r' :
  (forall k r, In (k, r) (rooms s) -> Room.id r = k) ->
  In (k, r') (rooms (run o s)) -> entry_origin o (rooms s) k r'.
Proof.
  intros Hid. unfold entry_origin. destruct o; unfold run, after.
  - rewrite createRoom_eq. destruct (result _ _); simpl; [|auto].
    intros H. apply In_set in H as [H|[-> ->]]; [auto|].
    right; left. split; [constructor|reflexivity].
  - rewrite joinRoom_eq.
    destruct (lookup roomCode s) as [room|] eqn:E; [|auto].
    destruct (_ >=? _) eqn:E1; [auto|].
    destruct (negb _) eqn:E2; [auto|]. simpl.
    intros H. apply In_set in H as [H|[-> ->]]; [auto|].
    apply lookup_In in E as [k0 E]. rewrite <- (Hid _ _ E) in E.
    right; right. exists room. split; [assumption|].
    constructor; [lia|]. destruct (Room.status room); simpl in E2; congruence.
  - rewrite leaveRoom_eq.
    destruct (lookup roomCode s) as [room|] eqn:E; [|auto].
    destruct (findIndex _ _); [|auto].
    destruct (_ =? 0)%nat eqn:E0; simpl; intros H.
    + apply In_delete in H. auto.
    + apply In_set in H as [H|[-> ->]]; [auto|].
      apply lookup_In in E as [k0 E]. rewrite <- (Hid _ _ E) in E.
      right; right. exists room. unfold departed at 1. simpl.
      rewrite id_handed_over. split; [assumption|].
      constructor. intros E'. rewrite E' in E0. discriminate.
  - rewrite startGame_eq.
    destruct (lookup roomCode s) as [room|] eqn:E; [|auto].
    destruct (negb _); [auto|]. destruct (_ <? _)%nat; [auto|]. simpl.
    intros H. apply In_set in H as [H|[-> ->]]; [auto|].
    apply lookup_In in E as [k0 E]. rewrite <- (Hid _ _ E) in E.
    right; right. exists room. split; [assumption|constructor].
  - rewrite updateUserConnection_eq.
    destruct (JsMap.get roomId (rooms s)) as [room|] eqn:E; [|auto].
    destruct (findIndex _ _); [|auto]. simpl.
    intros H. apply In_set in H as [H|[-> ->]]; [auto|].
    apply get_In in E. rewrite <- (Hid _ _ E) in E.
    right; right. exists room. split; [assumption|constructor].
  - unfold cleanupDisconnectedUsers, bind, rooms_entries.
    apply (cleanup_loop_origin now (rooms s) (rooms s) Hid s); auto.
    intros k1 r1 H1. left. assumption.
Qed.

(** ** Invariants *)

Lemma store_ok_empty : store_ok empty_store.
Proof. split; simpl; [constructor | tauto | tauto]. Qed.

Lemma store_ok_run o s : store_ok s -> store_ok (run o s).
Proof.
  intros [Hkeys Hid Hok]. split.
  - apply run_keys. assumption.
  - intros k r' H. apply run_entries in H as [H|[[_ ->]|(r & H & Hev)]]; auto.
    rewrite (evolves_id _ _ _ Hev). eauto.
  - intros k r' H. apply run_entries in H as [H|[[Hc _]|(r & H & Hev)]];
      eauto using creates_ok, evolves_ok.
Qed.

Lemma reachable_by_ok allowed s : reachable_by allowed s -> store_ok s.
Proof. induction 1; auto using store_ok_empty, store_ok_run. Qed.



(** Under unique keys, the entries of the map are its lookups. *)
Lemma store_ok_get s k r :
  store_ok s -> (In (k, r) (rooms s) <-> JsMap.get k (rooms s) = Some r).
Proof.
  intros Hok. split; [apply In_get, Hok | apply get_In].
Qed.

(** The room a valid code resolves to is stored under its own id. *)
Lemma lookup_get code s room :
  store_ok s -> lookup code s = Some room ->
  JsMap.get (Room.id room) (rooms s) = Some room.
Proof.
  intros Hok H. apply lookup_Some in H as (_ & k & _ & H).
  pose proof (get_In _ _ _ H) as Hin.
  rewrite (ok_key_id _ Hok _ _ Hin). assumption.
Qed.


(** ** Leaving *)

Lemma find_remaining userId (l : list User.t) :
  List.find (fun p => negb (has_id userId p) && User.isConnected p) l
  = List.find User.isConnected (remaining userId l).
Proof.
  induction l as [|a l IH]; simpl; [reflexivity|].
  destruct (has_id userId a); simpl; [assumption|].
  destruct (User.isConnected a); [reflexivity|assumption].
Qed.

(** The host after the host has left a room of two or more: the first
    connected member that stays, and the departed host when nobody that
    stays is connected. *)
Lemma hostId_departed userId room :
  Room.hostId room = userId ->
  (1 < length (Room.players room))%nat ->
  Room.hostId (departed userId room)
  = match List.find User.isConnected (remaining userId (Room.players room)) with
    | Some newHost => User.id newHost
    | None => userId
    end.
Proof.
  intros Hhost Hlen. unfold departed. simpl. unfold handed_over.
  rewrite <- find_remaining.
  apply String.eqb_eq in Hhost. apply Nat.ltb_lt in Hlen.
  rewrite Hhost, Hlen. simpl.
  destruct (List.find _ _); simpl; [reflexivity|].
  apply String.eqb_eq. assumption.
Qed.

Lemma remaining_not_in userId (l : list User.t) :
  ~ In userId (map User.id (remaining userId l)).
Proof.
  rewrite in_map_iff. intros (p & Hp & Hin).
  apply filter_In in Hin as [_ Hin].
  apply negb_true_iff, has_id_false in Hin. congruence.
Qed.

Lemma remaining_absent userId (l : list User.t) :
  ~ In userId (map User.id l) -> remaining userId l = l.
Proof.
  induction l as [|a l IH]; simpl; [reflexivity|].
  intros H. destruct (has_id userId a) eqn:E.
  - apply has_id_true in E. tauto.
  - simpl. f_equal. tauto.
Qed.


Lemma findIndex_absent userId (l : list User.t) :
  findIndex (has_id userId) l = None <-> ~ In userId (map User.id l).
Proof.
  rewrite findIndex_None, in_map_iff. split.
  - intros H (p & Hp & Hin). apply H in Hin. apply has_id_false in Hin. tauto.
  - intros H p Hin. apply has_id_false. intros E. apply H. eauto.
Qed.



Lemma reachable_weaken (allowed : Op -> Prop) s :
  reachable_by allowed s -> reachable s.
Proof. induction 1; [constructor | constructor; auto]. Qed.


(** ** Sorting by a numeric key, largest first *)

Section SortDescending.
Context {A : Type} (key : A -> Z).

Let cmp (a b : A) : Z := key b - key a.
Let before (a b : A) : Prop := key b <= key a.

Lemma sort_insert_perm (x : A) (l : list A) :
  Permutation (sort_insert cmp x l) (x :: l).
Proof.
  induction l as [|y l IH]; simpl; [reflexivity|].
  destruct (cmp x y <=? 0); [reflexivity|].
  rewrite IH. apply perm_swap.
Qed.

Lemma sort_by_perm (l : list A) : Permutation (sort_by cmp l) l.
Proof.
  induction l as [|x l IH]; simpl; [reflexivity|].
  rewrite sort_insert_perm. constructor. assumption.
Qed.

Lemma sort_insert_sorted (x : A) (l : list A) :
  StronglySorted before l -> StronglySorted before (sort_insert cmp x l).
Proof.
  induction 1 as [|y l Hl IH Hy]; simpl.
  - repeat constructor.
  - destruct (Z.leb_spec (cmp x y) 0) as [Hle|Hgt]; unfold cmp in *.
    + constructor; [constructor; assumption|].
      constructor; [unfold before; lia|].
      eapply List.Forall_impl; [|exact Hy]. unfold before. intros; lia.
    + constructor; [assumption|].
      eapply Permutation_Forall; [symmetry; apply sort_insert_perm|].
      constructor; [unfold before; lia | assumption].
Qed.

Lemma sort_by_sorted (l : list A) : StronglySorted before (sort_by cmp l).
Proof.
  induction l as [|x l IH]; simpl; [constructor|].
  apply sort_insert_sorted. assumption.
Qed.

(** Entries with equal keys keep their order. *)
Lemma sort_insert_stable (t : Z) (x : A) (l : list A) :
  List.filter (fun a => key a =? t) (sort_insert cmp x l)
  = List.filter (fun a => key a =? t) (x :: l).
Proof.
  induction l as [|y l IH]; simpl; [reflexivity|].
  destruct (Z.leb_spec (cmp x y) 0) as [Hle|Hgt]; [reflexivity|].
  simpl in *. rewrite IH. unfold cmp in Hgt.
  destruct (Z.eqb_spec (key x) t), (Z.eqb_spec (key y) t); try reflexivity.
  lia.
Qed.

Lemma sort_by_stable (t : Z) (l : list A) :
  List.filter (fun a => key a =? t) (sort_by cmp l)
  = List.filter (fun a => key a =? t) l.
Proof.
  induction l as [|x l IH]; simpl; [reflexivity|].
  rewrite sort_insert_stable. simpl. rewrite IH. reflexivity.
Qed.
End SortDescending.

Lemma available_iff (room : Room.t) :
  available room = true
  <-> Room.status room = WAITING
      /\ Z.of_nat (length (Room.players room)) < Room.maxPlayers room.
Proof.
  unfold available. rewrite andb_true_iff, Z.ltb_lt.
  destruct (Room.status room); simpl; intuition congruence.
Qed.

(** C10: [getAvailableRooms] leaves the store as it was and returns the
    stored rooms that are Waiting and have fewer members than [maxPlayers],
    each as often as it is stored, newest first; rooms created at the same
    time keep the order in which they are stored. *)
Theorem getAvailableRooms_newest_first (s : Store) :
  after getAvailableRooms s = s
  /\ Permutation (result getAvailableRooms s)
       (List.filter available (JsMap.values (rooms s)))
  /\ (forall room,
        In room (result getAvailableRooms s)
        <-> In room (JsMap.values (rooms s))
            /\ Room.status room = WAITING
            /\ Z.of_nat (length (Room.players room)) < Room.maxPlayers room)
  /\ StronglySorted (fun a b => Room.createdAt b <= Room.createdAt a)
       (result getAvailableRooms s)
  /\ (forall t,
        List.filter (fun room => Room.createdAt room =? t)
          (result getAvailableRooms s)
        = List.filter (fun room => Room.createdAt room =? t)
            (List.filter available (JsMap.values (rooms s)))).
Proof.
  unfold after, result, getAvailableRooms, bind, rooms_values, ret. simpl.
  split; [reflexivity|].
  split; [apply (sort_by_perm Room.createdAt)|].
  split; [|split].
  - intros room. rewrite <- available_iff, <- filter_In.
    split; apply Permutation_in;
      [|symmetry]; apply (sort_by_perm Room.createdAt).
  - apply (sort_by_sorted Room.createdAt).
  - intros t. apply (sort_by_stable Room.createdAt).
Qed.

(** ** Sample runs *)

Ltac by_run :=
  repeat (apply reachable_run; [ | simpl; try exact I; try lia | reflexivity ]);
  apply reachable_empty.

Lemma reachable_room_joined : reachable_by membership_op room_joined.
Proof. unfold room_joined, room_created, create_H. by_run. Qed.

Lemma reachable_room_guest_offline : reachable room_guest_offline.
Proof.
  unfold room_guest_offline, room_joined, room_created, create_H, reachable.
  by_run.
Qed.


Lemma reachable_room_full : reachable_by membership_op room_full.
Proof. unfold room_full, create_H. by_run. Qed.


(** The scenarios of roomService.test.ts on the sample stores. *)

Example created_room :
  rooms room_created
  = [("uuid-1",
      Room.mk "uuid-1" "ABC234" WAITING "host-id" [host_H] 10 None 1000 1000)].
Proof. reflexivity. Qed.

Example joined_room :
  result (joinRoom 1001 "ABC234" user_P) room_created
  = Some (Room.mk "uuid-1" "ABC234" WAITING "host-id" [host_H; user_P] 10 None
            1000 1001).
Proof. reflexivity. Qed.

Example join_full_room :
  result (joinRoom 1001 "ABC234" user_P) room_full = None.
Proof. reflexivity. Qed.

Example join_started_room :
  result (joinRoom 1003 "ABC234" (User.mk "user2-id" "User2" Absent true Absent))
    room_started = None.
Proof. reflexivity. Qed.

Example start_by_guest :
  result (startGame (1 # 2) 1002 "ABC234" "user-id") room_joined = None.
Proof. reflexivity. Qed.

Example start_by_host :
  result (startGame (1 # 2) 1002 "ABC234" "host-id") room_joined
  = Some (Room.mk "uuid-1" "ABC234" COMPOSING "host-id" [host_H; user_P] 10
            (Some "Medieval Castle") 1000 1002).
Proof. reflexivity. Qed.

Example host_leaves :
  result (leaveRoom 1002 "ABC234" "host-id") room_joined
  = Some (Room.mk "uuid-1" "ABC234" WAITING "user-id" [user_P] 10 None 1000
            1002).
Proof. reflexivity. Qed.

Example last_member_leaves :
  leaveRoom 1001 "ABC234" "host-id" room_created = (None, empty_store).
Proof. reflexivity. Qed.

Example newest_available_rooms :
  map Room.id (result getAvailableRooms three_rooms) = ["uuid-2"; "uuid-1"].
Proof. reflexivity. Qed.

Example started_game_state :
  result (getGameState "uuid-1") room_started
  = Some (GameState.mk "uuid-1" COMPOSING (Some "Medieval Castle") (Some 300)).
Proof. reflexivity. Qed.

(** ** Host hand-over on leave (C1) *)

(** When the host leaves and a member that stays is connected, the first
    such member is the new host. *)
Lemma leaveRoom_host_connected now roomCode userId s room newHost room' :
  lookup roomCode s = Some room ->
  Room.hostId room = userId ->
  In userId (map User.id (Room.players room)) ->
  List.find User.isConnected (remaining userId (Room.players room))
  = Some newHost ->
  result (leaveRoom now roomCode userId) s = Some room' ->
  Room.hostId room' = User.id newHost
  /\ Room.players room' = remaining userId (Room.players room)
  /\ In newHost (Room.players room').
Proof.
  intros Hl Hhost Hmember Hfind. unfold result. rewrite leaveRoom_eq, Hl.
  destruct (findIndex _ _) as [i|] eqn:Hi.
  - assert (Hin : In newHost (remaining userId (Room.players room)))
      by (apply find_some in Hfind; tauto).
    assert (Hlen : (1 < length (Room.players room))%nat).
    { destruct (findIndex_Some _ _ _ Hi) as (p & Hp & Hf & _).
      apply list_elem_of_lookup_2, list_elem_of_In in Hp.
      apply filter_In in Hin as [Hin Hn].
      destruct (Room.players room) as [|a [|b l]]; simpl in *; try lia.
      destruct Hp as [<-|[]], Hin as [<-|[]].
      rewrite Hf in Hn. discriminate. }
    pose proof (hostId_departed userId room Hhost Hlen) as Hd.
    rewrite Hfind in Hd.
    destruct (_ =? 0)%nat eqn:E0; simpl; [discriminate|].
    intros [= <-]. simpl. rewrite players_handed_over.
    split; [exact Hd|]. split; [reflexivity|exact Hin].
  - apply findIndex_absent in Hi. contradiction.
Qed.

(** C1: when the host leaves a room whose only other member is
    disconnected, [leaveRoom] succeeds, keeps that member, and leaves
    [hostId] on the departed host, who is no longer a member. *)
Theorem leaveRoom_host_not_member :
  reachable room_guest_offline
  /\ (exists room,
        lookup "ABC234" room_guest_offline = Some room
        /\ Room.hostId room = "host-id"
        /\ map User.id (Room.players room) = ["host-id"; "user-id"])
  /\ exists room',
       result (leaveRoom 1003 "ABC234" "host-id") room_guest_offline = Some room'
       /\ map User.id (Room.players room') = ["user-id"]
       /\ Room.hostId room' = "host-id"
       /\ ~ In (Room.hostId room') (map User.id (Room.players room')).
Proof.
  split; [apply reachable_room_guest_offline|].
  split.
  - eexists. split; [vm_compute; reflexivity|]. split; reflexivity.
  - eexists. split; [vm_compute; reflexivity|].
    split; [reflexivity|]. split; [reflexivity|].
    simpl. intros [H|[]]. discriminate.
Qed.

(** ** Phases (C2) *)





(** ** Joining again (C3) *)

Lemma findIndex_present userId (l : list User.t) :
  In userId (map User.id l) ->
  exists i p, findIndex (has_id userId) l = Some i /\ l !! i = Some p
              /\ User.id p = userId.
Proof.
  intros Hin. destruct (findIndex (has_id userId) l) as [i|] eqn:E.
  - destruct (findIndex_Some _ _ _ E) as (p & Hp & Hf & _).
    exists i, p. rewrite has_id_true in Hf. auto.
  - apply findIndex_absent in E. contradiction.
Qed.

(** C3, as stated, fails: a member of a full room cannot join again. *)
Lemma joinRoom_member_of_full_room_fails :
  ~ (forall s now roomCode user room,
       reachable s ->
       lookup roomCode s = Some room ->
       In (User.id user) (map User.id (Room.players room)) ->
       exists room', result (joinRoom now roomCode user) s = Some room').
Proof.
  intros H.
  destruct (H room_full 1001 "ABC234" host_H _
              (reachable_weaken _ _ reachable_room_full) eq_refl)
    as (room' & Hjoin).
  - simpl. auto.
  - discriminate Hjoin.
Qed.

(** C3, amended: when the room is Waiting and below capacity, joining with
    the id of a member replaces the first member with that id by the
    refreshed one, in place; the other members, their order and their
    number stay. When the room is full or not Waiting the call fails and
    the store stays as it was. *)
Theorem joinRoom_existing_member now roomCode user s room :
  lookup roomCode s = Some room ->
  In (User.id user) (map User.id (Room.players room)) ->
  (Room.status room = WAITING ->
   Z.of_nat (length (Room.players room)) < Room.maxPlayers room ->
   exists i existing room',
     findIndex (has_id (User.id user)) (Room.players room) = Some i
     /\ Room.players room !! i = Some existing
     /\ room' = Room.with_updatedAt now
                  (Room.with_players
                     (<[i := refresh_user existing user]> (Room.players room))
                     room)
     /\ joinRoom now roomCode user s
        = (Some room',
           mkStore (JsMap.set (Room.id room) room' (rooms s)) (roomsByCode s))
     /\ length (Room.players room') = length (Room.players room)
     /\ map User.id (Room.players room') = map User.id (Room.players room)
     /\ Room.players room' !! i
        = Some (User.mk (User.id user) (User.username user)
                  (spread (User.avatar existing) (User.avatar user)) true
                  (spread (User.socketId existing) (User.socketId user)))
     /\ forall j, j <> i -> Room.players room' !! j = Room.players room !! j)
  /\ (Room.status room <> WAITING
      \/ Room.maxPlayers room <= Z.of_nat (length (Room.players room)) ->
      joinRoom now roomCode user s = (None, s)).
Proof.
  intros Hl Hin. split.
  - intros Hst Hcap.
    destruct (findIndex_present _ _ Hin) as (i & existing & Hi & He & Hid).
    exists i, existing. eexists. split; [exact Hi|]. split; [exact He|].
    split; [reflexivity|].
    assert (Hlt : (i < length (Room.players room))%nat)
      by (eapply lookup_lt_Some; eauto).
    split; [|split; [|split; [|split]]]; simpl.
    + rewrite joinRoom_eq, Hl, Hst. simpl.
      destruct (Z.geb_spec (Z.of_nat (length (Room.players room)))
                           (Room.maxPlayers room)); [lia|].
      unfold joined, joined_players. rewrite Hi, He. reflexivity.
    + apply length_insert.
    + eapply map_id_insert; eauto.
    + rewrite list_lookup_insert_eq by assumption. reflexivity.
    + intros j Hj. apply list_lookup_insert_ne. auto.
  - intros Hgate. rewrite joinRoom_eq, Hl.
    destruct (Z.geb_spec (Z.of_nat (length (Room.players room)))
                         (Room.maxPlayers room)); [reflexivity|].
    destruct Hgate as [Hst|Hfull]; [|lia].
    destruct (Room.status room); simpl; congruence.
Qed.

Lemma joinRoom_existing_member_witness :
  exists room',
    result (joinRoom 1002 "ABC234" user_P_again) room_joined = Some room'
    /\ length (Room.players room') = 2%nat
    /\ Room.players room' !! 1%nat
       = Some (User.mk "user-id" "Updated User" Absent true (Defined "socket-2")).
Proof.
  destruct (proj1 (joinRoom_existing_member 1002 "ABC234" user_P_again
                     room_joined _ eq_refl
                     (or_intror (or_introl eq_refl)))
              eq_refl eq_refl)
    as (i & existing & room' & Hi & He & _ & Hjoin & Hlen & _ & Hp & _).
  injection Hi as <-. injection He as <-.
  exists room'. unfold result. rewrite Hjoin. auto.
Defined.

(** ** Connection state after a join (C9) *)

Lemma insert_unique (l : list User.t) (i : nat) (old new p : User.t) :
  unique_ids l -> l !! i = Some old -> User.id new = User.id old ->
  In p (<[i := new]> l) -> User.id p = User.id old -> p = new.
Proof.
  unfold unique_ids. revert i.
  induction l as [|a l IH]; intros [|i]; simpl; try discriminate.
  - intros Hnd [= ->] Hid [<-|Hin] Hp; [reflexivity|].
    apply NoDup_cons_iff in Hnd as [Hnot _].
    exfalso. apply Hnot. rewrite <- Hp. apply in_map. assumption.
  - intros Hnd Hi Hid [<-|Hin] Hp.
    + apply NoDup_cons_iff in Hnd as [Hnot _].
      exfalso. apply Hnot. rewrite Hp.
      apply in_map, list_elem_of_In, list_elem_of_lookup. eauto.
    + apply NoDup_cons_iff in Hnd as [_ Hnd]. eauto.
Qed.

Lemma joined_players_connected (user : User.t) (l : list User.t) :
  unique_ids l ->
  (exists p, In p (joined_players user l) /\ User.id p = User.id user)
  /\ forall p, In p (joined_players user l) -> User.id p = User.id user ->
               User.isConnected p = true.
Proof.
  intros Hnd. unfold joined_players.
  destruct (findIndex _ l) as [i|] eqn:E.
  - destruct (findIndex_Some _ _ _ E) as (old & Hold & Hf & _).
    apply has_id_true in Hf. rewrite Hold. split.
    + exists (refresh_user old user). split; [|reflexivity].
      apply list_elem_of_In, list_elem_of_lookup. exists i.
      apply list_lookup_insert_eq. eapply lookup_lt_Some; eauto.
    + intros p Hin Hp.
      rewrite (insert_unique l i old (refresh_user old user) p); auto.
      congruence.
  - split.
    + exists (connect_user user). split; [|reflexivity].
      apply in_or_app. right. left. reflexivity.
    + intros p Hin Hp. apply in_app_or in Hin as [Hin|[<-|[]]]; [|reflexivity].
      pose proof (proj1 (findIndex_None _ l) E p Hin) as Hfalse.
      apply has_id_false in Hfalse. contradiction.
Qed.

(** C9: after a successful [joinRoom] the member with the id of the
    joining user is there and is connected, whatever [isConnected] the
    call was given, on the append path and on the update path alike. *)
Theorem joinRoom_connects s now roomCode user room' :
  reachable s ->
  result (joinRoom now roomCode user) s = Some room' ->
  (exists p, In p (Room.players room') /\ User.id p = User.id user)
  /\ forall p, In p (Room.players room') -> User.id p = User.id user ->
               User.isConnected p = true.
Proof.
  intros Hreach. pose proof (reachable_by_ok _ _ Hreach) as Hok.
  unfold result. rewrite joinRoom_eq.
  destruct (lookup roomCode s) as [room|] eqn:E; [|discriminate].
  destruct (_ >=? _); [discriminate|].
  destruct (negb _); [discriminate|]. simpl. intros [= <-]. simpl.
  apply joined_players_connected.
  apply lookup_In in E as [k E]. apply (ok_rooms _ Hok) in E. apply E.
Qed.

Lemma joinRoom_connects_witness :
  reachable room_joined
  /\ result (joinRoom 1002 "ABC234" user_P_again) room_joined
     = Some (Room.mk "uuid-1" "ABC234" WAITING "host-id"
               [ host_H;
                 User.mk "user-id" "Updated User" Absent true
                   (Defined "socket-2") ]
               10 None 1000 1002)
  /\ User.isConnected
       (User.mk "user-id" "Updated User" Absent true (Defined "socket-2"))
     = true.
Proof.
  assert (H : reachable room_joined)
    by exact (reachable_weaken _ _ reachable_room_joined).
  split; [exact H|]. split; [reflexivity|].
  apply (proj2 (joinRoom_connects room_joined 1002 "ABC234" user_P_again _
                  H eq_refl)).
  - simpl. auto.
  - reflexivity.
Defined.

(** ** Membership bounds and the end of a room (C4) *)





(** ** The game-state view (C7) *)

(** C7: [getGameState] leaves the store as it was and returns the view of
    the room stored under the id; [timeRemaining] is 300 when Composing,
    120 when Voting and absent otherwise, and does not depend on
    [updatedAt]. *)
Theorem getGameState_view (roomId : string) (s : Store) :
  getGameState roomId s = (option_map view (JsMap.get roomId (rooms s)), s)
  /\ (forall room,
        getTimeRemaining room
        = match Room.status room with
          | COMPOSING => Some 300
          | VOTING => Some 120
          | WAITING | RESULTS => None
          end)
  /\ (forall room t,
        getTimeRemaining (Room.with_updatedAt t room) = getTimeRemaining room).
Proof.
  split; [|split].
  - unfold getGameState, getRoomById, rooms_get, bind, ret, view.
    destruct (JsMap.get roomId (rooms s)) as [room|]; simpl; [|reflexivity].
    unfold getTimeRemaining. destruct (Room.status room); reflexivity.
  - intros room. unfold getTimeRemaining. destruct (Room.status room); reflexivity.
  - reflexivity.
Qed.

(** ** Room codes (C5, C8) *)

(** The alphabet has its 32 symbols once each. *)
Lemma alphabet_NoDup : List.NoDup alphabet.
Proof.
  apply (NoDup_map_inv nat_of_ascii). vm_compute.
  repeat (constructor; [simpl; intuition discriminate|]). constructor.
Qed.

Lemma producible_alphabet c : producible c -> In c alphabet.
Proof.
  intros (rand & i & Hr & Hi & Hget).
  destruct (generateRoomCode_symbols rand Hr) as (_ & H & _).
  destruct (H i Hi) as (c' & Hc' & _ & Hin). congruence.
Qed.

Lemma unit_draws_ABC234 : unit_draws draws_ABC234.
Proof.
  intros i Hi.
  do 6 (destruct i as [|i]; [split; unfold Qle, Qlt; simpl; lia|]). lia.
Qed.

(** C5, as stated, fails: the alphabet has 32 symbols, and no 33 distinct
    symbols can come out of [generateRoomCode]. *)
Lemma alphabet_not_33_symbols :
  String.length characters = 32%nat
  /\ ~ (exists symbols : list ascii,
          length symbols = 33%nat /\ List.NoDup symbols
          /\ forall c, In c symbols -> producible c).
Proof.
  split; [reflexivity|].
  intros (symbols & Hlen & Hnd & Hall).
  assert (Hincl : incl symbols alphabet)
    by (intros c Hc; apply producible_alphabet, Hall, Hc).
  pose proof (NoDup_incl_length Hnd Hincl) as Hle.
  rewrite Hlen in Hle. change (length alphabet) with 32%nat in Hle. lia.
Qed.

(** C5, amended: the alphabet has 32 symbols, all distinct, none of them
    0, 1, I or O; a draw [r] selects the symbol of index [k] exactly when
    [k/32 <= r < (k+1)/32], so a uniform draw selects every symbol with the
    same chance; and for draws in [0, 1) the code has 6 characters, the
    one at position [i] is the symbol the draw of iteration [i] selects,
    and the code passes [isValidRoomCode]. *)
Theorem generateRoomCode_spec :
  String.length characters = 32%nat
  /\ List.NoDup alphabet
  /\ (forall c, In c ["0"; "1"; "I"; "O"]%char -> ~ In c alphabet)
  /\ (forall r k,
        random_index r (String.length characters) = k
        <-> (k # 32 <= r /\ r < (k + 1) # 32)%Q)
  /\ forall rand,
       unit_draws rand ->
       String.length (generateRoomCode rand) = 6%nat
       /\ (forall i, (i < 6)%nat ->
             exists c,
               String.get i (generateRoomCode rand) = Some c
               /\ String.get
                    (Z.to_nat (random_index (rand i) (String.length characters)))
                    characters = Some c
               /\ In c alphabet)
       /\ isValidRoomCode (generateRoomCode rand) = true.
Proof.
  split; [reflexivity|]. split; [apply alphabet_NoDup|]. split; [|split].
  - intros c Hc Hin. simpl in Hc.
    destruct Hc as [<-|[<-|[<-|[<-|[]]]]]; vm_compute in Hin;
      intuition discriminate.
  - intros r k. apply random_index_interval.
  - intros rand Hr. apply generateRoomCode_symbols. assumption.
Qed.

Lemma generateRoomCode_spec_witness :
  unit_draws draws_ABC234
  /\ String.length (generateRoomCode draws_ABC234) = 6%nat
  /\ isValidRoomCode (generateRoomCode draws_ABC234) = true.
Proof.
  split; [exact unit_draws_ABC234|].
  destruct (proj2 (proj2 (proj2 (proj2 generateRoomCode_spec)))
              draws_ABC234 unit_draws_ABC234) as (Hlen & _ & Hvalid).
  split; assumption.
Defined.

(** C8: a code of 6 characters comes back with a space after its third
    character; any other string, [null] and [undefined] come back as they
    are; in particular AB comes back as AB. *)
Theorem formatRoomCode_spec :
  (forall s, String.length s = 6%nat ->
     formatRoomCode (JsStr s)
     = JsStr (substring 0 3 s ++ " " ++ substring 3 3 s)
     /\ s = substring 0 3 s ++ substring 3 3 s)
  /\ (forall s, String.length s <> 6%nat -> formatRoomCode (JsStr s) = JsStr s)
  /\ formatRoomCode JsNull = JsNull
  /\ formatRoomCode JsUndefined = JsUndefined
  /\ formatRoomCode (JsStr "AB") = JsStr "AB".
Proof.
  split; [|split; [|repeat split]].
  - intros s Hs.
    do 6 (destruct s as [|? s]; [discriminate|]).
    destruct s; [|discriminate]. split; reflexivity.
  - intros s Hs. unfold formatRoomCode, falsy.
    destruct (String.length s =? 0)%nat; [reflexivity|].
    destruct (Nat.eqb_spec (String.length s) 6); [contradiction|reflexivity].
Qed.

Lemma formatRoomCode_spec_witness :
  formatRoomCode (JsStr "ABC123") = JsStr "ABC 123"
  /\ formatRoomCode (JsStr "ABC1234") = JsStr "ABC1234".
Proof.
  split.
  - exact (proj1 (proj1 formatRoomCode_spec "ABC123" eq_refl)).
  - apply (proj1 (proj2 formatRoomCode_spec) "ABC1234"). simpl. lia.
Defined.


(** The cases of roomUtils.test.ts. *)

Example code_of_draws : generateRoomCode draws_ABC234 = "ABC234".
Proof. reflexivity. Qed.

Example valid_codes :
  map isValidRoomCode ["ABC123"; "XYZ789"; "A2B3C4"] = [true; true; true].
Proof. reflexivity. Qed.

Example invalid_codes :
  map isValidRoomCode [""; "abc123"; "ABC12"; "ABC1234"; "ABC-12"; "ABC 12"]
  = [false; false; false; false; false; false].
Proof. reflexivity. Qed.

Example formatted_codes :
  map formatRoomCode
    [JsStr "ABC123"; JsStr "ABC12"; JsStr "ABC1234"; JsStr ""; JsNull;
     JsUndefined]
  = [JsStr "ABC 123"; JsStr "ABC12"; JsStr "ABC1234"; JsStr ""; JsNull;
     JsUndefined].
Proof. reflexivity. Qed.

(** The validation accepts codes the generator never makes. *)
Example valid_but_never_generated :
  isValidRoomCode "O0I1O0" = true
  /\ Forall (fun c => ~ In c alphabet) (list_ascii_of_string "O0I1O0").
Proof.
  split; [reflexivity|].
  repeat constructor; vm_compute; intuition discriminate.
Qed.

(** * Further properties *)

Lemma unique_code_result attempts s c :
  result (unique_code attempts) s = Some c ->
  roomsByCode s !! c = None
  /\ exists rand, In rand attempts /\ c = generateRoomCode rand.
Proof.
  unfold result. induction attempts as [|rand rest IH]; simpl; [discriminate|].
  unfold bind, roomsByCode_has. simpl.
  destruct (bool_decide (is_Some (roomsByCode s !! generateRoomCode rand))) eqn:E.
  - intros H. destruct (IH H) as (Hfree & rand' & Hin & ->). eauto.
  - simpl. intros [= <-]. split; [|eauto].
    apply bool_decide_eq_false in E.
    destruct (roomsByCode s !! generateRoomCode rand); [|reflexivity].
    exfalso. apply E. eauto.
Qed.

Lemma unique_code_None attempts s :
  result (unique_code attempts) s = None <->
  forall rand, In rand attempts ->
               is_Some (roomsByCode s !! generateRoomCode rand).
Proof.
  unfold result. induction attempts as [|rand rest IH]; simpl.
  - split; [intros _ ? []|reflexivity].
  - unfold bind, roomsByCode_has. simpl.
    destruct (bool_decide (is_Some (roomsByCode s !! generateRoomCode rand))) eqn:E.
    + apply bool_decide_eq_true in E. rewrite IH. split.
      * intros H rand' [<-|Hin]; auto.
      * intros H rand' Hin. apply H. auto.
    + apply bool_decide_eq_false in E. simpl. split; [discriminate|].
      intros H. exfalso. apply E, H. auto.
Qed.

Section IndexUpdates.
Context (s : Store) (Hix : index_ok s).

Lemma index_ok_write r r' :
  JsMap.get (Room.id r) (rooms s) = Some r ->
  Room.id r' = Room.id r -> Room.code r' = Room.code r ->
  index_ok (mkStore (JsMap.set (Room.id r) r' (rooms s)) (roomsByCode s)).
Proof.
  intros Hr Hid Hcode. split; simpl.
  - intros k r0. rewrite get_set.
    destruct (String.eqb_spec k (Room.id r)) as [->|Hk].
    + intros [= <-]. rewrite Hcode. apply (ok_code_of_room _ Hix). assumption.
    + apply (ok_code_of_room _ Hix).
  - intros c k Hc. destruct (ok_room_of_code _ Hix _ _ Hc) as (r0 & Hr0 & <-).
    rewrite get_set. destruct (String.eqb_spec k (Room.id r)) as [->|Hk]; [|eauto].
    exists r'. split; [reflexivity|]. congruence.
Qed.

Lemma index_ok_remove r :
  JsMap.get (Room.id r) (rooms s) = Some r ->
  index_ok (mkStore (JsMap.delete (Room.id r) (rooms s))
                    (delete (Room.code r) (roomsByCode s))).
Proof.
  intros Hr. split; simpl.
  - intros k r0. rewrite get_delete.
    destruct (String.eqb_spec k (Room.id r)) as [->|Hk]; [discriminate|].
    intros Hr0. rewrite lookup_delete_ne.
    + apply (ok_code_of_room _ Hix). assumption.
    + intros E. apply Hk.
      pose proof (ok_code_of_room _ Hix _ _ Hr0) as H0.
      pose proof (ok_code_of_room _ Hix _ _ Hr) as H1.
      congruence.
  - intros c k. rewrite lookup_delete.
    destruct (decide (Room.code r = c)) as [E|E]; [discriminate|].
    intros Hc. destruct (ok_room_of_code _ Hix _ _ Hc) as (r0 & Hr0 & <-).
    exists r0. split; [|reflexivity]. rewrite get_delete.
    destruct (String.eqb_spec k (Room.id r)) as [->|Hk]; [|assumption].
    congruence.
Qed.

Lemma index_ok_create r :
  JsMap.get (Room.id r) (rooms s) = None ->
  roomsByCode s !! Room.code r = None ->
  index_ok (mkStore (JsMap.set (Room.id r) r (rooms s))
                    (<[Room.code r := Room.id r]> (roomsByCode s))).
Proof.
  intros Hfresh Hfree. split; simpl.
  - intros k r0. rewrite get_set.
    destruct (String.eqb_spec k (Room.id r)) as [->|Hk].
    + intros [= <-]. apply lookup_insert_eq.
    + intros Hr0. pose proof (ok_code_of_room _ Hix _ _ Hr0) as H0.
      rewrite lookup_insert_ne; [assumption|]. congruence.
  - intros c k. rewrite lookup_insert.
    destruct (decide (Room.code r = c)) as [<-|E].
    + intros [= <-]. exists r. rewrite get_set, String.eqb_refl. auto.
    + intros Hc. destruct (ok_room_of_code _ Hix _ _ Hc) as (r0 & Hr0 & <-).
      exists r0. split; [|reflexivity]. rewrite get_set.
      destruct (String.eqb_spec k (Room.id r)) as [->|Hk]; [congruence|assumption].
Qed.
End IndexUpdates.

Lemma code_handed_over userId room :
  Room.code (handed_over userId room) = Room.code room.
Proof.
  unfold handed_over.
  destruct (_ && _); [|reflexivity]. destruct (List.find _ _); reflexivity.
Qed.

Lemma code_departed userId room :
  Room.code (departed userId room) = Room.code room.
Proof. unfold departed. simpl. apply code_handed_over. Qed.

Lemma id_departed userId room :
  Room.id (departed userId room) = Room.id room.
Proof. unfold departed. simpl. apply id_handed_over. Qed.

Lemma code_cleaned now room : Room.code (cleaned now room) = Room.code room.
Proof.
  unfold cleaned. simpl. destruct (negb _); [|reflexivity].
  destruct (List.filter _ _); reflexivity.
Qed.

(** One round of the cleanup loop on an entry that is still in the map. *)
Lemma store_ok_cleanup_entry now k r s :
  store_ok s -> JsMap.get k (rooms s) = Some r ->
  store_ok (after (cleanup_entry now (k, r)) s).
Proof.
  intros Hok Hr.
  assert (Hid : Room.id r = k) by (eapply ok_key_id, get_In; eauto).
  unfold after. rewrite cleanup_entry_eq. cbn zeta.
  destruct (negb _); [|exact Hok].
  destruct (length _ =? 0)%nat eqn:E0; simpl.
  - split; simpl.
    + apply keys_delete, Hok.
    + intros k' r' H. apply In_delete in H. eapply ok_key_id; eauto.
    + intros k' r' H. apply In_delete in H. eapply ok_rooms; eauto.
  - assert (Hne : List.filter User.isConnected (Room.players r) <> [])
      by (intros E; rewrite E in E0; discriminate).
    split; simpl.
    + apply keys_set, Hok.
    + intros k' r' H. apply In_set in H as [H|[-> ->]].
      * eapply ok_key_id; eauto.
      * rewrite id_cleaned. assumption.
    + intros k' r' H. apply In_set in H as [H|[-> ->]].
      * eapply ok_rooms; eauto.
      * apply (evolves_ok (CleanupDisconnectedUsers now) r).
        -- rewrite <- Hid. constructor. assumption.
        -- eapply ok_rooms, get_In; eauto.
Qed.

Lemma index_ok_cleanup_entry now k r s :
  store_ok s -> index_ok s -> JsMap.get k (rooms s) = Some r ->
  index_ok (after (cleanup_entry now (k, r)) s).
Proof.
  intros Hok Hix Hr.
  assert (Hid : Room.id r = k) by (eapply ok_key_id, get_In; eauto).
  unfold after. rewrite cleanup_entry_eq. cbn zeta.
  destruct (negb _); [|exact Hix].
  destruct (length _ =? 0)%nat; simpl; rewrite <- Hid.
  - apply index_ok_remove; [assumption|]. rewrite Hid. assumption.
  - apply index_ok_write; auto using id_cleaned, code_cleaned.
    rewrite Hid. assumption.
Qed.

Lemma get_after_cleanup_entry_ne now k r s k' :
  k' <> k ->
  JsMap.get k' (rooms (after (cleanup_entry now (k, r)) s))
  = JsMap.get k' (rooms s).
Proof.
  intros Hne.
  destruct (after_cleanup_entry now k r s) as [->|[->|[_ ->]]].
  - reflexivity.
  - rewrite get_delete. destruct (String.eqb_spec k' k); congruence.
  - rewrite get_set. destruct (String.eqb_spec k' k); congruence.
Qed.

(** A property that every round keeps is kept by the loop. *)
Lemma cleanup_loop_keeps (P : Store -> Prop) now :
  (forall s k r, store_ok s -> P s -> JsMap.get k (rooms s) = Some r ->
                 P (after (cleanup_entry now (k, r)) s)) ->
  forall entries s,
    List.NoDup (JsMap.keys entries) ->
    (forall k r, In (k, r) entries -> JsMap.get k (rooms s) = Some r) ->
    store_ok s -> P s ->
    P (after (for_each (cleanup_entry now) entries) s).
Proof.
  intros Hstep.
  induction entries as [|[k0 r0] entries IH]; intros s Hnd Hget Hok HP.
  - exact HP.
  - rewrite after_for_each_cons. simpl in Hnd.
    apply NoDup_cons_iff in Hnd as [Hnot Hnd].
    assert (H0 : JsMap.get k0 (rooms s) = Some r0)
      by (apply Hget; left; reflexivity).
    apply IH.
    + assumption.
    + intros k r Hin. rewrite get_after_cleanup_entry_ne.
      * apply Hget. right. assumption.
      * intros ->. apply Hnot. eapply In_keys; eauto.
    + apply store_ok_cleanup_entry; assumption.
    + apply Hstep; assumption.
Qed.

Lemma index_ok_run o s :
  store_ok s -> uuid_fresh s o -> index_ok s -> index_ok (run o s).
Proof.
  intros Hok Hfresh Hix. destruct o; unfold run, after; simpl in Hfresh.
  - rewrite createRoom_eq.
    destruct (result (unique_code attempts) s) as [c|] eqn:E; [|exact Hix].
    apply unique_code_result in E as [Hfree _]. cbn zeta. simpl.
    apply (index_ok_create s Hix
             (Room.mk uuid c WAITING (User.id host) [host]
                (default 10 maxPlayers) None now now)); assumption.
  - rewrite joinRoom_eq.
    destruct (lookup roomCode s) as [room|] eqn:E; [|exact Hix].
    destruct (_ >=? _); [exact Hix|]. destruct (negb _); [exact Hix|]. simpl.
    apply index_ok_write; eauto using lookup_get.
  - rewrite leaveRoom_eq.
    destruct (lookup roomCode s) as [room|] eqn:E; [|exact Hix].
    destruct (findIndex _ _); [|exact Hix].
    rewrite id_departed, code_departed.
    destruct (_ =? 0)%nat; simpl.
    + apply index_ok_remove; eauto using lookup_get.
    + apply index_ok_write; simpl;
        eauto using lookup_get, id_handed_over, code_handed_over.
  - rewrite startGame_eq.
    destruct (lookup roomCode s) as [room|] eqn:E; [|exact Hix].
    destruct (negb _); [exact Hix|]. destruct (_ <? _)%nat; [exact Hix|]. simpl.
    apply index_ok_write; eauto using lookup_get.
  - rewrite updateUserConnection_eq.
    destruct (JsMap.get roomId (rooms s)) as [room|] eqn:E; [|exact Hix].
    destruct (findIndex _ _); [|exact Hix]. simpl.
    assert (Hid : Room.id room = roomId) by (eapply ok_key_id, get_In; eauto).
    apply index_ok_write; auto. rewrite Hid. assumption.
  - unfold cleanupDisconnectedUsers, bind, rooms_entries.
    apply (cleanup_loop_keeps index_ok now); auto.
    + intros; apply index_ok_cleanup_entry; assumption.
    + apply Hok.
    + intros k r H. apply In_get; [apply Hok|assumption].
Qed.

Lemma index_ok_empty : index_ok empty_store.
Proof.
  split; simpl; [discriminate|]. intros c k H.
  rewrite lookup_empty in H. discriminate.
Qed.

Lemma reachable_index_ok allowed s : reachable_by allowed s -> index_ok s.
Proof.
  induction 1; [apply index_ok_empty|].
  apply index_ok_run; eauto using reachable_by_ok.
Qed.

(** ** The code index *)

(** X1: in every reachable store the two maps agree, and two stored rooms
    never share a code. *)
Theorem code_index_consistent (s : Store) :
  reachable s ->
  (forall k room, JsMap.get k (rooms s) = Some room ->
     roomsByCode s !! Room.code room = Some k)
  /\ (forall c k, roomsByCode s !! c = Some k ->
        exists room, JsMap.get k (rooms s) = Some room /\ Room.code room = c)
  /\ (forall k1 k2 room1 room2,
        JsMap.get k1 (rooms s) = Some room1 ->
        JsMap.get k2 (rooms s) = Some room2 ->
        Room.code room1 = Room.code room2 -> k1 = k2 /\ room1 = room2).
Proof.
  intros Hreach. pose proof (reachable_index_ok _ _ Hreach) as [H1 H2].
  split; [exact H1|]. split; [exact H2|].
  intros k1 k2 room1 room2 Hr1 Hr2 Hc.
  pose proof (H1 _ _ Hr1) as E1. pose proof (H1 _ _ Hr2) as E2.
  rewrite Hc in E1. assert (k1 = k2) by congruence. subst.
  split; [reflexivity|congruence].
Qed.

Lemma code_index_consistent_witness :
  reachable room_joined
  /\ roomsByCode room_joined !! "ABC234" = Some "uuid-1".
Proof.
  assert (H : reachable room_joined)
    by exact (reachable_weaken _ _ reachable_room_joined).
  split; [exact H|].
  exact (proj1 (code_index_consistent room_joined H) "uuid-1"
           (Room.mk "uuid-1" "ABC234" WAITING "host-id" [host_H; user_P] 10
              None 1000 1001) eq_refl).
Defined.

Lemma lookup_found code k room s :
  isValidRoomCode code = true -> roomsByCode s !! code = Some k -> k <> "" ->
  JsMap.get k (rooms s) = Some room -> lookup code s = Some room.
Proof.
  intros Hv Hc Hk Hr.
  unfold lookup, result, getRoomByCode, bind, roomsByCode_get, rooms_get, ret.
  rewrite Hv. simpl. rewrite Hc.
  destruct (String.eqb_spec k ""); [contradiction|]. simpl. assumption.
Qed.

(** ** createRoom *)

(** X2: [createRoom] fails only when every attempted code is taken.
    Otherwise it returns a Waiting room with the host as only member and
    as host, under a code that was free, and stores it under both
    indices; with draws in [0, 1) and a non-empty uuid the room is found
    by its code afterwards. *)
Theorem createRoom_stores_room attempts uuid now host maxPlayers (s : Store) :
  (result (createRoom attempts uuid now host maxPlayers) s = None
   <-> forall rand, In rand attempts ->
                    is_Some (roomsByCode s !! generateRoomCode rand))
  /\ forall room,
       result (createRoom attempts uuid now host maxPlayers) s = Some room ->
       let s' := after (createRoom attempts uuid now host maxPlayers) s in
       room = Room.mk uuid (Room.code room) WAITING (User.id host) [host]
                (default 10 maxPlayers) None now now
       /\ roomsByCode s !! Room.code room = None
       /\ (exists rand, In rand attempts
                        /\ Room.code room = generateRoomCode rand)
       /\ result (getRoomById uuid) s' = Some room
       /\ roomsByCode s' !! Room.code room = Some uuid
       /\ ((forall rand, In rand attempts -> unit_draws rand) -> uuid <> "" ->
           lookup (Room.code room) s' = Some room).
Proof.
  unfold result at 1 2, after. rewrite createRoom_eq. split.
  - rewrite <- unique_code_None.
    destruct (result (unique_code attempts) s); simpl; split; congruence.
  - intros room.
    destruct (result (unique_code attempts) s) as [c|] eqn:E; [|discriminate].
    cbn zeta. simpl. intros [= <-]. simpl.
    apply unique_code_result in E as (Hfree & rand & Hin & ->).
    assert (Hget : JsMap.get uuid
                     (JsMap.set uuid
                        (Room.mk uuid (generateRoomCode rand) WAITING
                           (User.id host) [host] (default 10 maxPlayers) None
                           now now) (rooms s)) = Some
                        (Room.mk uuid (generateRoomCode rand) WAITING
                           (User.id host) [host] (default 10 maxPlayers) None
                           now now))
      by (rewrite get_set, String.eqb_refl; reflexivity).
    split; [reflexivity|]. split; [assumption|]. split; [eauto|].
    split; [exact Hget|]. split; [apply lookup_insert_eq|].
    intros Hdraws Huuid. apply (lookup_found _ uuid); auto.
    + apply generateRoomCode_symbols, Hdraws, Hin.
    + apply lookup_insert_eq.
Qed.

Lemma createRoom_stores_room_witness :
  exists room,
    result (createRoom [draws_ABC234] "uuid-1" 1000 host_H None) empty_store
    = Some room
    /\ lookup (Room.code room) room_created = Some room.
Proof.
  eexists. split; [reflexivity|].
  refine (proj2 (proj2 (proj2 (proj2 (proj2
            (proj2 (createRoom_stores_room [draws_ABC234] "uuid-1" 1000
                      host_H None empty_store) _ eq_refl))))) _ _).
  - intros rand [<-|[]]. exact unit_draws_ABC234.
  - discriminate.
Defined.

(** ** Rooms and their codes *)

Lemma evolves_code o r r' : evolves o r r' -> Room.code r' = Room.code r.
Proof.
  destruct 1; simpl; auto using code_handed_over, code_cleaned.
Qed.

Lemma valid_codes_run o s :
  store_ok s -> well_drawn o ->
  (forall k r, In (k, r) (rooms s) ->
               isValidRoomCode (Room.code r) = true /\ k <> "") ->
  forall k r, In (k, r) (rooms (run o s)) ->
              isValidRoomCode (Room.code r) = true /\ k <> "".
Proof.
  intros Hok Hdrawn Hvalid k r' H.
  assert (Hrest : (exists r, In (k, r) (rooms s)
                             /\ Room.code r' = Room.code r) ->
                  isValidRoomCode (Room.code r') = true /\ k <> "").
  { intros (r & Hin & ->). eauto. }
  destruct o; simpl in Hdrawn.
  - unfold run, after in H. rewrite createRoom_eq in H.
    destruct (result (unique_code attempts) s) as [c|] eqn:E; [|eauto].
    cbn zeta in H. simpl in H.
    apply In_set in H as [H|[-> ->]]; [eauto|]. simpl.
    apply unique_code_result in E as (_ & rand & Hin & ->).
    destruct Hdrawn as [Hdraws Huuid]. split; [|assumption].
    apply generateRoomCode_symbols, Hdraws, Hin.
  - apply run_entries in H as [H|[[Hc _]|(r1 & H & Hev)]];
      [eauto|inversion Hc|eauto using evolves_code|apply Hok].
  - apply run_entries in H as [H|[[Hc _]|(r1 & H & Hev)]];
      [eauto|inversion Hc|eauto using evolves_code|apply Hok].
  - apply run_entries in H as [H|[[Hc _]|(r1 & H & Hev)]];
      [eauto|inversion Hc|eauto using evolves_code|apply Hok].
  - apply run_entries in H as [H|[[Hc _]|(r1 & H & Hev)]];
      [eauto|inversion Hc|eauto using evolves_code|apply Hok].
  - apply run_entries in H as [H|[[Hc _]|(r1 & H & Hev)]];
      [eauto|inversion Hc|eauto using evolves_code|apply Hok].
Qed.

Lemma reachable_valid_codes s :
  reachable_by well_drawn s ->
  forall k r, In (k, r) (rooms s) ->
              isValidRoomCode (Room.code r) = true /\ k <> "".
Proof.
  induction 1; [intros k r []|].
  apply valid_codes_run; eauto using reachable_by_ok.
Qed.

Lemma stored_room_found s :
  reachable_by well_drawn s ->
  forall k room, JsMap.get k (rooms s) = Some room ->
                 lookup (Room.code room) s = Some room.
Proof.
  intros Hreach k room Hr.
  pose proof (reachable_index_ok _ _ Hreach) as Hix.
  destruct (reachable_valid_codes s Hreach k room (get_In _ _ _ Hr)).
  apply (lookup_found _ k); auto. apply Hix. assumption.
Qed.

(** X3: with draws in [0, 1) and non-empty uuids, every stored room is
    found by its code; and in any reachable store the room a code resolves
    to carries that code and is stored under its id. *)
Theorem rooms_found_by_code (s : Store) :
  reachable_by well_drawn s ->
  (forall k room, JsMap.get k (rooms s) = Some room ->
     lookup (Room.code room) s = Some room)
  /\ (forall code room, lookup code s = Some room ->
        Room.code room = code
        /\ JsMap.get (Room.id room) (rooms s) = Some room).
Proof.
  intros Hreach.
  pose proof (reachable_by_ok _ _ Hreach) as Hok.
  pose proof (reachable_index_ok _ _ Hreach) as Hix.
  split.
  - apply stored_room_found. assumption.
  - intros code room Hl. split; [|eauto using lookup_get].
    apply lookup_Some in Hl as (_ & k & Hc & Hr).
    destruct (ok_room_of_code _ Hix _ _ Hc) as (r0 & Hr0 & <-). congruence.
Qed.

Lemma well_drawn_room_joined : reachable_by well_drawn room_joined.
Proof.
  unfold room_joined, room_created, create_H.
  apply reachable_run; [|exact I|exact I].
  apply reachable_run; [apply reachable_empty| |reflexivity].
  split; [|discriminate]. intros rand [<-|[]]. exact unit_draws_ABC234.
Qed.

Lemma rooms_found_by_code_witness :
  reachable_by well_drawn room_joined
  /\ lookup "ABC234" room_joined
     = Some (Room.mk "uuid-1" "ABC234" WAITING "host-id" [host_H; user_P] 10
               None 1000 1001).
Proof.
  split; [exact well_drawn_room_joined|].
  exact (proj1 (rooms_found_by_code room_joined well_drawn_room_joined)
           "uuid-1" _ eq_refl).
Defined.

(** ** joinRoom *)

(** X4: for rooms whose [maxPlayers] is a whole number, [joinRoom] succeeds
    exactly when the code resolves to a Waiting room with fewer members
    than [maxPlayers]. On success only the members and [updatedAt] of that
    room change, and the room is stored; on failure the store stays as it
    was. The capacity is a whole number in [Room.t]; on [NaN] the test
    [players.length >= maxPlayers] of the source is false as well as
    [players.length < maxPlayers], and the first part does not hold. *)
Theorem joinRoom_outcome now roomCode user (s : Store) :
  ((exists room', result (joinRoom now roomCode user) s = Some room')
   <-> exists room,
         lookup roomCode s = Some room
         /\ Room.status room = WAITING
         /\ Z.of_nat (length (Room.players room)) < Room.maxPlayers room)
  /\ (forall room',
        result (joinRoom now roomCode user) s = Some room' ->
        exists room,
          lookup roomCode s = Some room
          /\ room' = Room.mk (Room.id room) (Room.code room) WAITING
                       (Room.hostId room) (Room.players room')
                       (Room.maxPlayers room) (Room.theme room)
                       (Room.createdAt room) now
          /\ result (getRoomById (Room.id room))
               (after (joinRoom now roomCode user) s) = Some room')
  /\ (result (joinRoom now roomCode user) s = None ->
      after (joinRoom now roomCode user) s = s).
Proof.
  unfold result at 1 2 4, after. rewrite joinRoom_eq.
  destruct (lookup roomCode s) as [room|] eqn:E.
  2:{ split; [|split]; simpl; try reflexivity; try discriminate.
      split; [intros [? H]; discriminate|intros (? & H & _); discriminate]. }
  destruct (Z.geb_spec (Z.of_nat (length (Room.players room)))
                       (Room.maxPlayers room)) as [Hfull|Hroom].
  { split; [|split]; simpl; try reflexivity; try discriminate.
    split; [intros [? H]; discriminate|].
    intros (room0 & [= <-] & _ & Hlt). lia. }
  destruct (Room.status room) eqn:Est; simpl;
    try (split; [|split]; simpl; try reflexivity; try discriminate;
         split; [intros [? H]; discriminate|];
         intros (room0 & [= <-] & Hst & _); congruence).
  split; [|split].
  - split; [intros _; eauto|intros _; eauto].
  - intros room' [= <-]. exists room. split; [reflexivity|].
    split; [unfold joined, Room.with_updatedAt, Room.with_players; simpl;
            rewrite Est; reflexivity|].
    unfold getRoomById, rooms_get, result. simpl.
    rewrite get_set, String.eqb_refl. reflexivity.
  - discriminate.
Qed.

Lemma joinRoom_outcome_witness :
  exists room', result (joinRoom 1001 "ABC234" user_P) room_created = Some room'.
Proof.
  apply (proj1 (joinRoom_outcome 1001 "ABC234" user_P room_created)).
  eexists. split; [reflexivity|]. split; [reflexivity|]. simpl. lia.
Defined.

(** X5: a user whose id is not among the members of a Waiting room below
    capacity is appended after them, connected; the members that were
    there keep their order and their data. *)
Theorem joinRoom_new_member now roomCode user (s : Store) room :
  lookup roomCode s = Some room ->
  ~ In (User.id user) (map User.id (Room.players room)) ->
  Room.status room = WAITING ->
  Z.of_nat (length (Room.players room)) < Room.maxPlayers room ->
  exists room',
    result (joinRoom now roomCode user) s = Some room'
    /\ Room.players room'
       = (Room.players room
          ++ [User.mk (User.id user) (User.username user) (User.avatar user)
                true (User.socketId user)])%list
    /\ length (Room.players room') = S (length (Room.players room))
    /\ Room.hostId room' = Room.hostId room.
Proof.
  intros Hl Habs Hst Hcap. unfold result. rewrite joinRoom_eq, Hl, Hst.
  destruct (Z.geb_spec (Z.of_nat (length (Room.players room)))
                       (Room.maxPlayers room)); [lia|]. simpl.
  eexists. split; [reflexivity|]. simpl. unfold joined_players.
  apply findIndex_absent in Habs. rewrite Habs.
  split; [reflexivity|]. split; [|reflexivity].
  rewrite length_app. simpl. lia.
Qed.

Lemma joinRoom_new_member_witness :
  exists room',
    result (joinRoom 1001 "ABC234" user_P) room_created = Some room'
    /\ Room.players room' = [host_H; user_P].
Proof.
  destruct (joinRoom_new_member 1001 "ABC234" user_P room_created _ eq_refl)
    as (room' & Hres & Hplayers & _).
  - simpl. intros [H|[]]. discriminate H.
  - reflexivity.
  - simpl. lia.
  - exists room'. split; [exact Hres|exact Hplayers].
Defined.

(** X6: with draws in [0, 1) and non-empty uuids, a stored room whose
    [maxPlayers] is a whole number can be joined through its code exactly
    when [getAvailableRooms] lists it. The capacity is a whole number in
    [Room.t]; a room of capacity [NaN] passes the test of [joinRoom] and
    fails the filter of [getAvailableRooms], so it can be joined and is
    never listed. *)
Theorem listed_rooms_are_joinable now user (s : Store) k room :
  reachable_by well_drawn s ->
  JsMap.get k (rooms s) = Some room ->
  ((exists room', result (joinRoom now (Room.code room) user) s = Some room')
   <-> In room (result getAvailableRooms s)).
Proof.
  intros Hreach Hr.
  pose proof (stored_room_found s Hreach k room Hr) as Hl.
  unfold result at 1. rewrite joinRoom_eq, Hl.
  assert (Hlist : In room (result getAvailableRooms s)
                  <-> In room (JsMap.values (rooms s)) /\ available room = true).
  { unfold result, getAvailableRooms, bind, rooms_values, ret. simpl.
    rewrite <- filter_In.
    split; apply Permutation_in; [|symmetry];
      apply (sort_by_perm Room.createdAt). }
  rewrite Hlist. unfold available.
  assert (Hin : In room (JsMap.values (rooms s)))
    by (apply get_In in Hr; apply (in_map snd) in Hr; exact Hr).
  destruct (Z.geb_spec (Z.of_nat (length (Room.players room)))
                       (Room.maxPlayers room)) as [Hfull|Hroom].
  - destruct (Z.ltb_spec (Z.of_nat (length (Room.players room)))
                         (Room.maxPlayers room)); [lia|].
    rewrite andb_false_r. simpl.
    split; [intros [? H0]; discriminate|intros [_ H0]; discriminate].
  - destruct (Z.ltb_spec (Z.of_nat (length (Room.players room)))
                         (Room.maxPlayers room)); [|lia].
    rewrite andb_true_r.
    destruct (RoomStatus_eqb (Room.status room) WAITING); simpl.
    + split; eauto.
    + split; [intros [? H0]; discriminate|intros [_ H0]; discriminate].
Qed.

Lemma listed_rooms_are_joinable_witness :
  reachable_by well_drawn room_joined
  /\ In (Room.mk "uuid-1" "ABC234" WAITING "host-id" [host_H; user_P] 10 None
           1000 1001)
        (result getAvailableRooms room_joined).
Proof.
  split; [exact well_drawn_room_joined|].
  apply (proj1 (listed_rooms_are_joinable 1002 user_P_again room_joined
                  "uuid-1" _ well_drawn_room_joined eq_refl)).
  eexists. reflexivity.
Defined.

(** ** leaveRoom *)

Lemma remaining_length userId (l : list User.t) :
  unique_ids l -> In userId (map User.id l) ->
  S (length (remaining userId l)) = length l.
Proof.
  unfold unique_ids. induction l as [|a l IH]; simpl; [tauto|].
  intros Hnd Hin. apply NoDup_cons_iff in Hnd as [Hnot Hnd].
  destruct (has_id userId a) eqn:Ea; simpl.
  - apply has_id_true in Ea. rewrite <- Ea in *.
    fold (remaining (User.id a) l). rewrite remaining_absent; auto.
  - apply has_id_false in Ea. destruct Hin as [Hin|Hin]; [contradiction|].
    f_equal. apply IH; assumption.
Qed.

(** X7: when a member leaves a room of a reachable store and somebody
    stays, the room the call returns and stores has the members that
    stayed, in their order and one fewer than before; a leave by somebody
    else than the host keeps the host; status, capacity, theme and code
    stay. *)
Theorem leaveRoom_member now roomCode userId (s : Store) room :
  reachable s ->
  lookup roomCode s = Some room ->
  In userId (map User.id (Room.players room)) ->
  remaining userId (Room.players room) <> [] ->
  exists room',
    result (leaveRoom now roomCode userId) s = Some room'
    /\ result (getRoomById (Room.id room))
         (after (leaveRoom now roomCode userId) s) = Some room'
    /\ Room.players room' = remaining userId (Room.players room)
    /\ ~ In userId (map User.id (Room.players room'))
    /\ S (length (Room.players room')) = length (Room.players room)
    /\ (Room.hostId room <> userId -> Room.hostId room' = Room.hostId room)
    /\ room' = Room.mk (Room.id room) (Room.code room) (Room.status room)
                 (Room.hostId room') (Room.players room')
                 (Room.maxPlayers room) (Room.theme room)
                 (Room.createdAt room) now.
Proof.
  intros Hreach Hl Hin Hne.
  pose proof (reachable_by_ok _ _ Hreach) as Hok.
  assert (Hrok : room_ok room).
  { apply lookup_In in Hl as [k Hl]. eapply ok_rooms; eauto. }
  unfold result, after. rewrite leaveRoom_eq, Hl.
  destruct (findIndex _ _) eqn:F.
  2:{ apply findIndex_absent in F. contradiction. }
  destruct (_ =? 0)%nat eqn:E0.
  { apply length_zero_iff in E0. rewrite players_departed in E0. contradiction. }
  eexists. split; [reflexivity|]. simpl.
  rewrite players_handed_over, id_handed_over.
  split; [|split; [|split; [|split; [|split]]]].
  - unfold getRoomById, rooms_get. simpl.
    rewrite get_set, String.eqb_refl. reflexivity.
  - reflexivity.
  - apply remaining_not_in.
  - apply remaining_length; [apply Hrok|assumption].
  - intros Hhost. unfold handed_over.
    destruct (String.eqb_spec (Room.hostId room) userId); [contradiction|].
    reflexivity.
  - unfold Room.with_updatedAt, Room.with_players. simpl.
    rewrite id_handed_over, code_handed_over, status_handed_over,
      maxPlayers_handed_over.
    unfold handed_over. destruct (_ && _); [|reflexivity].
    destruct (List.find _ _); reflexivity.
Qed.

Lemma leaveRoom_member_witness :
  reachable room_joined
  /\ exists room',
       result (leaveRoom 1002 "ABC234" "user-id") room_joined = Some room'
       /\ Room.players room' = [host_H]
       /\ Room.hostId room' = "host-id".
Proof.
  assert (H : reachable room_joined)
    by exact (reachable_weaken _ _ reachable_room_joined).
  split; [exact H|].
  destruct (leaveRoom_member 1002 "ABC234" "user-id" room_joined _ H eq_refl)
    as (room' & Hres & _ & Hp & _ & _ & Hh & _).
  - simpl. auto.
  - discriminate.
  - exists room'. split; [exact Hres|]. split; [exact Hp|].
    apply Hh. discriminate.
Defined.

(** ** The host *)

Lemma host_joined now user room :
  host_is_member room -> host_is_member (joined now user room).
Proof.
  unfold host_is_member, joined, joined_players. simpl.
  destruct (findIndex _ _) as [i|] eqn:E.
  - destruct (findIndex_Some _ _ _ E) as (p & Hp & Hf & _). rewrite Hp.
    erewrite map_id_insert; eauto. simpl. symmetry. apply has_id_true, Hf.
  - rewrite map_app. intros H. apply in_or_app. auto.
Qed.

Lemma host_cleaned t room :
  List.filter User.isConnected (Room.players room) <> [] ->
  host_is_member (cleaned t room).
Proof.
  unfold host_is_member, cleaned. simpl. intros Hne.
  destruct (existsb _ _) eqn:E; simpl.
  - apply existsb_exists in E as (p & Hin & Hp). apply has_id_true in Hp.
    rewrite <- Hp. apply in_map. assumption.
  - destruct (List.filter _ _) as [|first rest]; [congruence|]. simpl. auto.
Qed.

Lemma host_departed userId room :
  host_is_member room ->
  (Room.hostId room = userId ->
   exists p, In p (Room.players room) /\ User.id p <> userId
             /\ User.isConnected p = true) ->
  host_is_member (departed userId room).
Proof.
  unfold host_is_member. intros Hhost Hcond.
  rewrite players_departed.
  destruct (String.eqb_spec (Room.hostId room) userId) as [E|E].
  - destruct (Hcond E) as (p & Hin & Hid & Hc).
    assert (Hlen : (1 < length (Room.players room))%nat).
    { rewrite <- E in Hid. apply in_map_iff in Hhost as (h & Hh & Hhin).
      destruct (Room.players room) as [|a [|b l]]; simpl in *; try lia.
      destruct Hin as [<-|[]], Hhin as [<-|[]]. congruence. }
    rewrite (hostId_departed _ _ E Hlen).
    destruct (List.find _ _) as [newHost|] eqn:Hfind.
    + apply find_some in Hfind as [Hin' _]. apply in_map. assumption.
    + assert (Hoff : User.isConnected p = false); [|congruence].
      apply (find_none _ _ Hfind p).
      apply filter_In. split; [assumption|].
      apply negb_true_iff, has_id_false. assumption.
  - assert (Hsame : Room.hostId (departed userId room) = Room.hostId room).
    { unfold departed. simpl. unfold handed_over.
      destruct (String.eqb_spec (Room.hostId room) userId); [contradiction|].
      reflexivity. }
    rewrite Hsame. apply in_map_iff in Hhost as (h & Hh & Hhin).
    apply in_map_iff. exists h. split; [assumption|].
    apply filter_In. split; [assumption|].
    apply negb_true_iff, has_id_false. congruence.
Qed.

(** X8: in a reachable store, a room whose host is one of its members
    still has its host among its members after any call, except when the
    call is the leave of the host from that room and no member that stays
    is connected. *)
Theorem host_stays_member (s : Store) o k room room' :
  reachable s -> uuid_fresh s o ->
  JsMap.get k (rooms s) = Some room ->
  JsMap.get k (rooms (run o s)) = Some room' ->
  host_is_member room ->
  (forall now roomCode,
     o = LeaveRoom now roomCode (Room.hostId room) ->
     lookup roomCode s = Some room ->
     exists p, In p (Room.players room) /\ User.id p <> Room.hostId room
               /\ User.isConnected p = true) ->
  host_is_member room'.
Proof.
  intros Hreach Hfresh Hr Hr' Hhost Hcond.
  pose proof (reachable_by_ok _ _ Hreach) as Hok.
  assert (Hother : forall now roomCode userId,
            o = LeaveRoom now roomCode userId -> host_is_member room').
  { intros now roomCode userId ->. unfold run, after in Hr'.
    rewrite leaveRoom_eq in Hr'.
    destruct (lookup roomCode s) as [found|] eqn:E; [|simpl in Hr'; congruence].
    destruct (findIndex _ _); [|simpl in Hr'; congruence].
    rewrite id_departed in Hr'.
    pose proof (lookup_get _ _ _ Hok E) as Hfound.
    destruct (_ =? 0)%nat; simpl in Hr'.
    - rewrite get_delete in Hr'.
      destruct (String.eqb_spec k (Room.id found)); [discriminate|congruence].
    - rewrite get_set in Hr'.
      destruct (String.eqb_spec k (Room.id found)) as [->|]; [|congruence].
      assert (found = room) by congruence. subst found.
      injection Hr' as <-.
      apply (host_departed userId room Hhost).
      intros <-. eapply Hcond; eauto. }
  apply get_In in Hr'.
  apply run_entries in Hr' as [H|[[Hc ->]|(r0 & H & Hev)]]; [| | |apply Hok].
  - apply (store_ok_get _ _ _ Hok) in H. congruence.
  - destruct Hc. simpl in *. congruence.
  - apply (store_ok_get _ _ _ Hok) in H. assert (r0 = room) by congruence.
    subst r0. destruct Hev; eauto using host_joined, host_cleaned.
    unfold host_is_member, reconnected. simpl.
    rewrite map_id_reconnected. assumption.
Qed.

Lemma host_stays_member_witness :
  reachable room_joined
  /\ host_is_member
       (Room.mk "uuid-1" "ABC234" WAITING "user-id" [user_P] 10 None 1000 1002).
Proof.
  assert (H : reachable room_joined)
    by exact (reachable_weaken _ _ reachable_room_joined).
  split; [exact H|].
  apply (host_stays_member room_joined (LeaveRoom 1002 "ABC234" "host-id")
           "uuid-1"
           (Room.mk "uuid-1" "ABC234" WAITING "host-id" [host_H; user_P] 10
              None 1000 1001)
           _ H I eq_refl eq_refl).
  - unfold host_is_member. simpl. auto.
  - intros now roomCode _ _. exists user_P.
    split; [simpl; auto|]. split; [discriminate|reflexivity].
Defined.

(** ** updateUserConnection *)

(** X9: for a member of the room, [updateUserConnection] sets the
    connection state of the first member with that id to the one given,
    and its socket id to the one given when connected and to [undefined]
    otherwise; id, name and avatar of that member, the other members, the
    host and the status stay, and the room is stored. *)
Theorem updateUserConnection_member now roomId userId isConnected socketId
    (s : Store) room :
  result (getRoomById roomId) s = Some room ->
  In userId (map User.id (Room.players room)) ->
  exists i p room',
    findIndex (has_id userId) (Room.players room) = Some i
    /\ Room.players room !! i = Some p
    /\ result (updateUserConnection now roomId userId isConnected socketId) s
       = Some room'
    /\ result (getRoomById (Room.id room))
         (after (updateUserConnection now roomId userId isConnected socketId)
            s) = Some room'
    /\ Room.players room' !! i
       = Some (User.mk userId (User.username p) (User.avatar p) isConnected
                 (match isConnected, socketId with
                  | true, Some sid => Defined sid
                  | _, _ => Undefined
                  end))
    /\ (forall j, j <> i -> Room.players room' !! j = Room.players room !! j)
    /\ length (Room.players room') = length (Room.players room)
    /\ room' = Room.mk (Room.id room) (Room.code room) (Room.status room)
                 (Room.hostId room) (Room.players room')
                 (Room.maxPlayers room) (Room.theme room)
                 (Room.createdAt room) now.
Proof.
  unfold getRoomById, rooms_get, result, after. simpl. intros Hr Hin.
  destruct (findIndex_present _ _ Hin) as (i & p & Hi & Hp & Hid).
  exists i, p. rewrite updateUserConnection_eq, Hr, Hi. cbn [fst snd rooms].
  eexists. split; [reflexivity|]. split; [exact Hp|].
  split; [reflexivity|].
  assert (Hlt : (i < length (Room.players room))%nat)
    by (eapply lookup_lt_Some; eauto).
  unfold reconnected, reconnected_players. rewrite Hi, Hp. simpl.
  split; [|split; [|split; [|split]]].
  - rewrite get_set, String.eqb_refl. reflexivity.
  - rewrite list_lookup_insert_eq by assumption. rewrite Hid.
    destruct isConnected, socketId; reflexivity.
  - intros j Hj. apply list_lookup_insert_ne. auto.
  - apply length_insert.
  - reflexivity.
Qed.

Lemma updateUserConnection_member_witness :
  exists room',
    result (updateUserConnection 1002 "uuid-1" "user-id" false (Some "sock"))
      room_joined = Some room'
    /\ Room.players room' !! 1%nat
       = Some (User.mk "user-id" "User" Absent false Undefined).
Proof.
  destruct (updateUserConnection_member 1002 "uuid-1" "user-id" false
              (Some "sock") room_joined _ eq_refl)
    as (i & p & room' & Hi & Hp & Hres & _ & Hnew & _).
  - simpl. auto.
  - injection Hi as <-. injection Hp as <-.
    exists room'. split; [exact Hres|exact Hnew].
Defined.

(** ** startGame *)

Lemma js_index_themes (r : Q) :
  (0 <= r /\ r < 1)%Q ->
  exists t, js_index themes (random_index r (length themes)) = Some t
            /\ In t themes.
Proof.
  intros [Hlo Hhi]. unfold js_index, random_index, Math_floor.
  change (inject_Z (Z.of_nat (length themes))) with (10 # 1)%Q.
  assert (Hk : 0 <= Qfloor (r * (10 # 1)) < 10).
  { pose proof (Qfloor_le (r * (10 # 1))) as H1.
    pose proof (Qlt_floor (r * (10 # 1))) as H2.
    revert H1 H2. generalize (Qfloor (r * (10 # 1))). intros k H1 H2.
    rewrite inject_Z_plus in H2.
    assert (H3 : (inject_Z k < inject_Z 10)%Q)
      by (change (inject_Z 10) with (10 # 1)%Q; lra).
    assert (H4 : (inject_Z (-1) < inject_Z k)%Q)
      by (change (inject_Z (-1)) with (-1 # 1)%Q;
          change (inject_Z 1) with (1 # 1)%Q in H2; lra).
    rewrite <- Zlt_Qlt in H3, H4. lia. }
  destruct (Z.leb_spec 0 (Qfloor (r * (10 # 1)))); [|lia].
  destruct (nth_error themes (Z.to_nat (Qfloor (r * (10 # 1))))) as [t|] eqn:E.
  - exists t. split; [reflexivity|]. eapply nth_error_In; eauto.
  - apply nth_error_None in E. change (length themes) with 10%nat in E. lia.
Qed.

(** X10: a successful [startGame] stores the room it returns; that room is
    Composing, its [updatedAt] is the time of the call and everything
    else but the theme is as before; with a draw in [0, 1) the theme is
    one of the ten themes. A failed [startGame] leaves the store as it
    was. *)
Theorem startGame_outcome r now roomCode userId (s : Store) :
  (forall room',
     result (startGame r now roomCode userId) s = Some room' ->
     exists room,
       lookup roomCode s = Some room
       /\ room' = Room.mk (Room.id room) (Room.code room) COMPOSING
                    (Room.hostId room) (Room.players room)
                    (Room.maxPlayers room) (Room.theme room')
                    (Room.createdAt room) now
       /\ result (getRoomById (Room.id room))
            (after (startGame r now roomCode userId) s) = Some room'
       /\ ((0 <= r /\ r < 1)%Q ->
           exists t, Room.theme room' = Some t /\ In t themes))
  /\ (result (startGame r now roomCode userId) s = None ->
      after (startGame r now roomCode userId) s = s).
Proof.
  unfold result at 1 3, after. rewrite startGame_eq.
  destruct (lookup roomCode s) as [room|] eqn:E;
    [|split; [discriminate|reflexivity]].
  destruct (negb _); [split; [discriminate|reflexivity]|].
  destruct (_ <? _)%nat; [split; [discriminate|reflexivity]|].
  split; [|discriminate].
  intros room' [= <-]. exists room. split; [reflexivity|].
  split; [reflexivity|]. split.
  - unfold getRoomById, rooms_get, result. simpl.
    rewrite get_set, String.eqb_refl. reflexivity.
  - intros Hr. simpl. apply js_index_themes. assumption.
Qed.

Lemma startGame_outcome_witness :
  exists t,
    Room.theme
      (Room.mk "uuid-1" "ABC234" COMPOSING "host-id" [host_H; user_P] 10
         (Some "Medieval Castle") 1000 1002) = Some t
    /\ In t themes.
Proof.
  destruct (proj1 (startGame_outcome (1 # 2) 1002 "ABC234" "host-id"
                     room_joined) _ eq_refl)
    as (room & _ & _ & _ & Htheme).
  apply Htheme. split; unfold Qle, Qlt; simpl; lia.
Defined.

(** ** One room at a time *)

(** X11: [joinRoom], [leaveRoom] and [startGame] change nothing when the
    code resolves to no room; when it resolves to a room they leave every
    room stored under another id as it was, and every other code of the
    index as it was. *)
Theorem other_rooms_untouched (s : Store) o roomCode :
  (exists now user, o = JoinRoom now roomCode user)
  \/ (exists now userId, o = LeaveRoom now roomCode userId)
  \/ (exists r now userId, o = StartGame r now roomCode userId) ->
  (lookup roomCode s = None -> run o s = s)
  /\ forall room,
       lookup roomCode s = Some room ->
       (forall k, k <> Room.id room ->
                  JsMap.get k (rooms (run o s)) = JsMap.get k (rooms s))
       /\ (forall c, c <> Room.code room ->
                     roomsByCode (run o s) !! c = roomsByCode s !! c).
Proof.
  assert (Hset : forall k k0 v, k <> k0 ->
            JsMap.get k (JsMap.set k0 v (rooms s)) = JsMap.get k (rooms s)).
  { intros k k0 v Hk. rewrite get_set.
    destruct (String.eqb_spec k k0); congruence. }
  intros [(now & user & ->)|[(now & userId & ->)|(r & now & userId & ->)]];
    unfold run, after.
  - rewrite joinRoom_eq. split; [intros ->; reflexivity|].
    intros room ->. destruct (_ >=? _); [auto|].
    destruct (negb _); simpl; auto.
  - rewrite leaveRoom_eq. split; [intros ->; reflexivity|].
    intros room ->. destruct (findIndex _ _); [|auto].
    rewrite id_departed, code_departed.
    destruct (_ =? 0)%nat; simpl; [|auto]. split.
    + intros k Hk. rewrite get_delete.
      destruct (String.eqb_spec k (Room.id room)); congruence.
    + intros c Hc. apply lookup_delete_ne. congruence.
  - rewrite startGame_eq. split; [intros ->; reflexivity|].
    intros room ->. destruct (negb _); [auto|].
    destruct (_ <? _)%nat; simpl; auto.
Qed.

Lemma other_rooms_untouched_witness :
  JsMap.get "uuid-2"
    (rooms (run (LeaveRoom 4000 "ABC234" "host-id") three_rooms))
  = JsMap.get "uuid-2" (rooms three_rooms).
Proof.
  refine (proj1 (proj2 (other_rooms_untouched three_rooms
                          (LeaveRoom 4000 "ABC234" "host-id") "ABC234" _)
                   _ eq_refl) "uuid-2" _).
  - right; left. eauto.
  - discriminate.
Defined.

(** ** cleanupDisconnectedUsers *)

Lemma get_after_cleanup_entry now k r s :
  JsMap.get k (rooms s) = Some r ->
  JsMap.get k (rooms (after (cleanup_entry now (k, r)) s)) = swept (now k) r.
Proof.
  intros Hr. unfold after, swept. rewrite cleanup_entry_eq. cbn zeta.
  destruct (length _ =? length _)%nat; simpl; [assumption|].
  destruct (length _ =? 0)%nat; simpl.
  - rewrite get_delete, String.eqb_refl. reflexivity.
  - rewrite get_set, String.eqb_refl. reflexivity.
Qed.

Lemma cleanup_loop_get now (entries : list (string * Room.t)) :
  forall s,
    List.NoDup (JsMap.keys entries) ->
    (forall k r, In (k, r) entries -> JsMap.get k (rooms s) = Some r) ->
    (forall k r, In (k, r) entries ->
       JsMap.get k (rooms (after (for_each (cleanup_entry now) entries) s))
       = swept (now k) r)
    /\ (forall k, ~ In k (JsMap.keys entries) ->
          JsMap.get k (rooms (after (for_each (cleanup_entry now) entries) s))
          = JsMap.get k (rooms s)).
Proof.
  induction entries as [|[k0 r0] entries IH]; intros s Hnd Hget.
  - split; [intros k r []|reflexivity].
  - simpl in Hnd. apply NoDup_cons_iff in Hnd as [Hnot Hnd].
    assert (H0 : JsMap.get k0 (rooms s) = Some r0)
      by (apply Hget; left; reflexivity).
    assert (Hget' : forall k r, In (k, r) entries ->
              JsMap.get k (rooms (after (cleanup_entry now (k0, r0)) s))
              = Some r).
    { intros k r Hin. rewrite get_after_cleanup_entry_ne.
      - apply Hget. right. assumption.
      - intros ->. apply Hnot. eapply In_keys; eauto. }
    destruct (IH _ Hnd Hget') as [IH1 IH2].
    split.
    + intros k r [[= <- <-]|Hin]; rewrite after_for_each_cons.
      * rewrite IH2 by assumption. apply get_after_cleanup_entry. assumption.
      * apply IH1. assumption.
    + intros k Hk. rewrite after_for_each_cons.
      rewrite IH2 by (intros Hin; apply Hk; right; exact Hin).
      apply get_after_cleanup_entry_ne. intros ->. apply Hk. left. reflexivity.
Qed.

Lemma get_after_cleanup now s k :
  store_ok s ->
  JsMap.get k (rooms (run (CleanupDisconnectedUsers now) s))
  = match JsMap.get k (rooms s) with
    | Some room => swept (now k) room
    | None => None
    end.
Proof.
  intros Hok. unfold run, cleanupDisconnectedUsers, bind, rooms_entries.
  destruct (cleanup_loop_get now (rooms s) s) as [H1 H2].
  - apply Hok.
  - intros k0 r H. apply In_get; [apply Hok|assumption].
  - destruct (JsMap.get k (rooms s)) as [room|] eqn:E.
    + apply H1, get_In. assumption.
    + rewrite <- E. apply H2. intros Hin.
      apply in_map_iff in Hin as ([k' r] & <- & Hin). simpl in E.
      apply In_get in Hin; [congruence|apply Hok].
Qed.

Lemma filter_all {A : Type} (f : A -> bool) (l : list A) :
  length (List.filter f l) = length l -> List.filter f l = l.
Proof.
  induction l as [|a l IH]; simpl; [reflexivity|].
  destruct (f a); simpl.
  - intros [= H]. f_equal. auto.
  - pose proof (length_filter_le f l). lia.
Qed.

Lemma filter_twice {A : Type} (f : A -> bool) (l : list A) :
  List.filter f (List.filter f l) = List.filter f l.
Proof.
  induction l as [|a l IH]; simpl; [reflexivity|].
  destruct (f a) eqn:Ea; simpl; [rewrite Ea, IH|]; auto.
Qed.

Lemma swept_connected t room room' :
  swept t room = Some room' ->
  List.filter User.isConnected (Room.players room') = Room.players room'.
Proof.
  unfold swept.
  destruct (Nat.eqb_spec (length (List.filter User.isConnected (Room.players room)))
                         (length (Room.players room))) as [E|E].
  - intros [= <-]. apply filter_all. assumption.
  - destruct (_ =? 0)%nat; [discriminate|]. intros [= <-].
    rewrite players_cleaned. apply filter_twice.
Qed.

Lemma swept_code t room room' :
  swept t room = Some room' -> Room.code room' = Room.code room.
Proof.
  unfold swept. destruct (_ =? _)%nat; [congruence|].
  destruct (_ =? 0)%nat; [discriminate|]. intros [= <-]. apply code_cleaned.
Qed.

(** X12: after [cleanupDisconnectedUsers] on a reachable store, a room
    whose members were all connected is as it was, a room with no
    connected member is gone and its code is free, and any other room has
    kept its connected members, in their order, with a host among them;
    no room is created, and every member of every room is connected. *)
Theorem cleanup_sweeps_rooms now (s : Store) :
  reachable s ->
  let s' := run (CleanupDisconnectedUsers now) s in
  (forall k,
     JsMap.get k (rooms s')
     = match JsMap.get k (rooms s) with
       | Some room =>
           let kept := List.filter User.isConnected (Room.players room) in
           if (length kept =? length (Room.players room))%nat then Some room
           else if (length kept =? 0)%nat then None
           else Some (cleaned (now k) room)
       | None => None
       end)
  /\ (forall room t,
        List.filter User.isConnected (Room.players room) <> [] ->
        Room.players (cleaned t room)
        = List.filter User.isConnected (Room.players room)
        /\ host_is_member (cleaned t room))
  /\ (forall k room', JsMap.get k (rooms s') = Some room' ->
        Forall (fun p => User.isConnected p = true) (Room.players room'))
  /\ (forall k room, JsMap.get k (rooms s) = Some room ->
        JsMap.get k (rooms s') = None ->
        roomsByCode s' !! Room.code room = None).
Proof.
  intros Hreach s'.
  pose proof (reachable_by_ok _ _ Hreach) as Hok.
  pose proof (reachable_index_ok _ _ Hreach) as Hix.
  assert (Hix' : index_ok s') by (apply index_ok_run; auto; exact I).
  split; [|split; [|split]].
  - intros k. apply get_after_cleanup. assumption.
  - intros room t Hne. split; [apply players_cleaned|].
    apply host_cleaned. assumption.
  - intros k room' Hr'. unfold s' in Hr'.
    rewrite get_after_cleanup in Hr' by assumption.
    destruct (JsMap.get k (rooms s)) as [room|]; [|discriminate].
    apply swept_connected in Hr'. rewrite <- Hr'.
    apply List.Forall_forall. intros p Hp. apply filter_In in Hp. tauto.
  - intros k room Hr Hgone.
    destruct (roomsByCode s' !! Room.code room) as [k'|] eqn:E; [|reflexivity].
    exfalso.
    destruct (ok_room_of_code _ Hix' _ _ E) as (r'' & Hr'' & Hcode).
    pose proof Hr'' as Hsw. unfold s' in Hsw.
    rewrite get_after_cleanup in Hsw by assumption.
    destruct (JsMap.get k' (rooms s)) as [r0|] eqn:E0; [|discriminate].
    apply swept_code in Hsw.
    pose proof (ok_code_of_room _ Hix _ _ E0) as H0.
    pose proof (ok_code_of_room _ Hix _ _ Hr) as H1.
    assert (k' = k) by congruence. subst k'. congruence.
Qed.


Lemma cleanup_sweeps_rooms_witness :
  reachable room_guest_offline
  /\ JsMap.get "uuid-1"
       (rooms (run (CleanupDisconnectedUsers (fun _ => 2000))
                 room_guest_offline))
     = Some (Room.mk "uuid-1" "ABC234" WAITING "host-id" [host_H] 10 None
               1000 2000).
Proof.
  split; [exact reachable_room_guest_offline|].
  exact (proj1 (cleanup_sweeps_rooms (fun _ => 2000) room_guest_offline
                  reachable_room_guest_offline) "uuid-1").
Defined.

Lemma for_each_noop {A : Type} (f : A -> Svc unit) (l : list A) s :
  (forall x, In x l -> f x s = (tt, s)) -> for_each f l s = (tt, s).
Proof.
  induction l as [|a l IH]; intros H; [reflexivity|].
  cbn [for_each]. unfold bind. rewrite (H a) by (left; reflexivity).
  apply IH. intros x Hx. apply H. right. assumption.
Qed.

Lemma cleanup_noop now s :
  (forall k r, In (k, r) (rooms s) ->
     List.filter User.isConnected (Room.players r) = Room.players r) ->
  cleanupDisconnectedUsers now s = (tt, s).
Proof.
  intros Hall. unfold cleanupDisconnectedUsers, bind, rooms_entries.
  apply for_each_noop. intros [k r] Hin. rewrite cleanup_entry_eq. cbn zeta.
  rewrite (Hall _ _ Hin), Nat.eqb_refl. reflexivity.
Qed.

(** X13: on a reachable store a second [cleanupDisconnectedUsers] right
    after the first changes nothing, and so does a cleanup of a store in
    which every member is connected. *)
Theorem cleanup_twice now1 now2 (s : Store) :
  reachable s ->
  cleanupDisconnectedUsers now2 (run (CleanupDisconnectedUsers now1) s)
  = (tt, run (CleanupDisconnectedUsers now1) s)
  /\ ((forall k room, JsMap.get k (rooms s) = Some room ->
         Forall (fun p => User.isConnected p = true) (Room.players room)) ->
      cleanupDisconnectedUsers now1 s = (tt, s)).
Proof.
  intros Hreach. pose proof (reachable_by_ok _ _ Hreach) as Hok. split.
  - apply cleanup_noop. intros k r' Hin.
    assert (Hok' : store_ok (run (CleanupDisconnectedUsers now1) s))
      by (apply store_ok_run; assumption).
    apply (store_ok_get _ _ _ Hok') in Hin.
    rewrite get_after_cleanup in Hin by assumption.
    destruct (JsMap.get k (rooms s)); [|discriminate].
    eapply swept_connected; eauto.
  - intros Hall. apply cleanup_noop. intros k r Hin.
    apply (store_ok_get _ _ _ Hok) in Hin. apply Hall in Hin.
    induction Hin as [|p l Hp _ IH]; simpl; [reflexivity|].
    rewrite Hp, IH. reflexivity.
Qed.

Lemma cleanup_twice_witness :
  reachable room_guest_offline
  /\ cleanupDisconnectedUsers (fun _ => 3000)
       (run (CleanupDisconnectedUsers (fun _ => 2000)) room_guest_offline)
     = (tt, run (CleanupDisconnectedUsers (fun _ => 2000)) room_guest_offline).
Proof.
  split; [exact reachable_room_guest_offline|].
  exact (proj1 (cleanup_twice (fun _ => 2000) (fun _ => 3000)
                  room_guest_offline reachable_room_guest_offline)).
Defined.

(** ** The rooms of a reachable store *)

(** X14: in every reachable store each room is stored once, under its own
    id, has at least one member, and no two of its members share an id. *)
Theorem reachable_rooms_well_formed (s : Store) :
  reachable s ->
  List.NoDup (map fst (rooms s))
  /\ forall k room,
       JsMap.get k (rooms s) = Some room ->
       Room.id room = k
       /\ Room.players room <> []
       /\ List.NoDup (map User.id (Room.players room)).
Proof.
  intros Hreach. pose proof (reachable_by_ok _ _ Hreach) as [Hkeys Hid Hrooms].
  split; [exact Hkeys|].
  intros k room Hr. apply get_In in Hr.
  destruct (Hrooms _ _ Hr) as [Hids Hne _]. auto.
Qed.

Lemma reachable_rooms_well_formed_witness :
  reachable room_joined
  /\ List.NoDup (map User.id [host_H; user_P]).
Proof.
  assert (H : reachable room_joined)
    by exact (reachable_weaken _ _ reachable_room_joined).
  split; [exact H|].
  exact (proj2 (proj2 (proj2 (reachable_rooms_well_formed room_joined H)
                         "uuid-1" _ eq_refl))).
Defined.

(** ** The codes the generator makes *)

Lemma get_list_ascii (s : string) (n : nat) :
  String.get n s = nth_error (list_ascii_of_string s) n.
Proof.
  revert n. induction s as [|a s IH]; intros [|n]; simpl; auto.
Qed.

Lemma alphabet_index (c : ascii) :
  In c alphabet ->
  exists k, 0 <= k < 32 /\ String.get (Z.to_nat k) characters = Some c.
Proof.
  intros Hin. apply In_nth_error in Hin as [n Hn].
  assert (Hlt : (n < 32)%nat).
  { change 32%nat with (length alphabet). apply nth_error_Some. congruence. }
  exists (Z.of_nat n). split; [lia|].
  rewrite Nat2Z.id, get_list_ascii. exact Hn.
Qed.

Lemma random_index_exact (k : Z) : random_index (k # 32) 32 = k.
Proof.
  apply random_index_interval. unfold Qle, Qlt. simpl. lia.
Qed.

Lemma generated_from_indices (k0 k1 k2 k3 k4 k5 : Z) c0 c1 c2 c3 c4 c5 :
  Forall2 (fun k c => 0 <= k < 32
                      /\ String.get (Z.to_nat k) characters = Some c)
          [k0; k1; k2; k3; k4; k5] [c0; c1; c2; c3; c4; c5] ->
  unit_draws (draws k0 k1 k2 k3 k4 k5)
  /\ generateRoomCode (draws k0 k1 k2 k3 k4 k5)
     = String c0 (String c1 (String c2 (String c3 (String c4 (String c5 ""))))).
Proof.
  intros HF.
  repeat match goal with
         | H : Forall2 _ _ _ |- _ => inversion H; subst; clear H
         end.
  repeat match goal with H : _ /\ _ |- _ => destruct H end.
  assert (Hr : unit_draws (draws k0 k1 k2 k3 k4 k5)).
  { intros i Hi.
    do 6 (destruct i as [|i]; [split; unfold Qle, Qlt; simpl; lia|]). lia. }
  split; [exact Hr|].
  destruct (generateRoomCode_chars _ Hr)
    as (d0 & d1 & d2 & d3 & d4 & d5 & -> & HF).
  repeat match goal with
         | H : Forall2 _ _ _ |- _ => inversion H; subst; clear H
         end.
  repeat match goal with H : _ /\ _ |- _ => destruct H end.
  unfold draws in *. rewrite !random_index_exact in *.
  congruence.
Qed.

Lemma generated_from_symbols c0 c1 c2 c3 c4 c5 :
  In c0 alphabet -> In c1 alphabet -> In c2 alphabet ->
  In c3 alphabet -> In c4 alphabet -> In c5 alphabet ->
  exists rand,
    unit_draws rand
    /\ generateRoomCode rand
       = String c0 (String c1 (String c2 (String c3 (String c4 (String c5 ""))))).
Proof.
  intros H0 H1 H2 H3 H4 H5.
  apply alphabet_index in H0 as (k0 & B0 & G0).
  apply alphabet_index in H1 as (k1 & B1 & G1).
  apply alphabet_index in H2 as (k2 & B2 & G2).
  apply alphabet_index in H3 as (k3 & B3 & G3).
  apply alphabet_index in H4 as (k4 & B4 & G4).
  apply alphabet_index in H5 as (k5 & B5 & G5).
  exists (draws k0 k1 k2 k3 k4 k5).
  apply generated_from_indices.
  repeat (apply List.Forall2_cons; [split; assumption|]). apply List.Forall2_nil.
Qed.

(** X15: the codes [generateRoomCode] can return for draws in [0, 1) are
    exactly the strings of 6 symbols of the alphabet; [isValidRoomCode]
    accepts all of them, and also codes the generator never returns. *)
Theorem generated_codes :
  (forall code,
     (exists rand, unit_draws rand /\ generateRoomCode rand = code)
     <-> String.length code = 6%nat
         /\ Forall (fun c => In c alphabet) (list_ascii_of_string code))
  /\ (forall rand, unit_draws rand ->
                   isValidRoomCode (generateRoomCode rand) = true)
  /\ exists code,
       isValidRoomCode code = true
       /\ ~ exists rand, unit_draws rand /\ generateRoomCode rand = code.
Proof.
  assert (Hiff : forall code,
     (exists rand, unit_draws rand /\ generateRoomCode rand = code)
     <-> String.length code = 6%nat
         /\ Forall (fun c => In c alphabet) (list_ascii_of_string code)).
  { intros code. split.
    - intros (rand & Hr & <-).
      destruct (generateRoomCode_symbols rand Hr) as (Hlen & Hsym & _).
      split; [exact Hlen|].
      destruct (generateRoomCode_chars rand Hr)
        as (c0 & c1 & c2 & c3 & c4 & c5 & E & _).
      rewrite E in *. simpl.
      repeat apply List.Forall_cons; try apply List.Forall_nil.
      + destruct (Hsym 0%nat) as (c & [= <-] & _ & Hin); [lia|exact Hin].
      + destruct (Hsym 1%nat) as (c & [= <-] & _ & Hin); [lia|exact Hin].
      + destruct (Hsym 2%nat) as (c & [= <-] & _ & Hin); [lia|exact Hin].
      + destruct (Hsym 3%nat) as (c & [= <-] & _ & Hin); [lia|exact Hin].
      + destruct (Hsym 4%nat) as (c & [= <-] & _ & Hin); [lia|exact Hin].
      + destruct (Hsym 5%nat) as (c & [= <-] & _ & Hin); [lia|exact Hin].
    - intros [Hlen Hall].
      do 6 (destruct code as [|? code]; [discriminate|]).
      destruct code; [|discriminate]. cbn [list_ascii_of_string] in Hall.
      repeat match goal with
             | H : Forall _ (_ :: _) |- _ => inversion H; subst; clear H
             end.
      apply generated_from_symbols; assumption. }
  split; [exact Hiff|]. split.
  - intros rand Hr. apply generateRoomCode_symbols. assumption.
  - exists "O0I1O0". split; [reflexivity|].
    intros Hgen. apply Hiff in Hgen as [_ Hall]. simpl in Hall.
    inversion Hall as [|c l Hin _]; subst.
    vm_compute in Hin. intuition discriminate.
Qed.

(** ** Formatting and validation together *)

(** X16: formatting a formatted code changes nothing. *)
Theorem formatRoomCode_idempotent (code : JsString) :
  formatRoomCode (formatRoomCode code) = formatRoomCode code.
Proof.
  destruct code as [| |s]; try reflexivity.
  destruct (Nat.eqb_spec (String.length s) 6) as [E|E].
  - do 6 (destruct s as [|? s]; [discriminate|]).
    destruct s; [|discriminate]. reflexivity.
  - assert (H : formatRoomCode (JsStr s) = JsStr s).
    { unfold formatRoomCode, falsy.
      destruct (String.length s =? 0)%nat; [reflexivity|].
      destruct (Nat.eqb_spec (String.length s) 6); [contradiction|reflexivity]. }
    rewrite H. exact H.
Qed.

(** X17: a code that [isValidRoomCode] rejects resolves to no room:
    [getRoomByCode], [joinRoom], [leaveRoom] and [startGame] fail on it
    and leave the store as it was, whatever the store holds; the formatted
    form of a 6-character code is such a code. *)
Theorem malformed_code_rejected :
  (forall code (s : Store),
     isValidRoomCode code = false ->
     getRoomByCode code s = (None, s)
     /\ (forall now user, joinRoom now code user s = (None, s))
     /\ (forall now userId, leaveRoom now code userId s = (None, s))
     /\ (forall r now userId, startGame r now code userId s = (None, s)))
  /\ (forall code formatted,
        String.length code = 6%nat ->
        formatRoomCode (JsStr code) = JsStr formatted ->
        isValidRoomCode formatted = false).
Proof.
  split.
  - intros code s Hv.
    assert (Hl : lookup code s = None).
    { unfold lookup, result, getRoomByCode. rewrite Hv. reflexivity. }
    split; [rewrite getRoomByCode_eq, Hl; reflexivity|].
    split; [|split]; intros.
    + rewrite joinRoom_eq, Hl. reflexivity.
    + rewrite leaveRoom_eq, Hl. reflexivity.
    + rewrite startGame_eq, Hl. reflexivity.
  - intros code formatted Hlen.
    do 6 (destruct code as [|? code]; [discriminate|]).
    destruct code; [|discriminate]. intros [= <-]. reflexivity.
Qed.

Lemma malformed_code_rejected_witness :
  joinRoom 1002 "ABC 234" user_P room_joined = (None, room_joined)
  /\ isValidRoomCode "ABC 234" = false.
Proof.
  split.
  - apply (proj1 malformed_code_rejected "ABC 234" room_joined eq_refl).
  - exact (proj2 malformed_code_rejected "ABC234" "ABC 234" eq_refl eq_refl).
Defined.

Lemma generated_codes_witness :
  exists rand, unit_draws rand /\ generateRoomCode rand = "XYZ789".
Proof.
  apply (proj2 (proj1 generated_codes "XYZ789")).
  split; [reflexivity|].
  repeat (apply List.Forall_cons; [vm_compute; tauto|]). apply List.Forall_nil.
Defined.

(** ** The client's room codes *)

Lemma list_ascii_append (a b : string) :
  list_ascii_of_string (a ++ b)
  = (list_ascii_of_string a ++ list_ascii_of_string b)%list.
Proof. induction a as [|c a IH]; simpl; [reflexivity|]. rewrite IH. reflexivity. Qed.

Lemma length_list_ascii (s : string) :
  length (list_ascii_of_string s) = String.length s.
Proof. induction s as [|c s IH]; simpl; auto. Qed.

Lemma code_loop (rand : nat -> Q) (l : list nat) :
  (forall i, In i l -> (0 <= rand i /\ rand i < 1)%Q) ->
  forall acc,
    exists cs,
      list_ascii_of_string
        (fold_left
           (fun result i =>
              result ++ charAt characters
                          (random_index (rand i) (String.length characters)))
           l acc)
      = (list_ascii_of_string acc ++ cs)%list
      /\ length cs = length l
      /\ Forall (fun c => In c alphabet /\ upper_or_digit c = true) cs.
Proof.
  set (f := fun (result : string) (i : nat) =>
              result ++ charAt characters
                          (random_index (rand i) (String.length characters))).
  induction l as [|i l IH]; intros Hr acc.
  - exists []. rewrite app_nil_r. repeat split. constructor.
  - destruct (charAt_characters (random_index (rand i) 32)) as (c & Hc & Hg & Hu).
    { apply random_index_range, Hr. left. reflexivity. }
    destruct (IH (fun j Hj => Hr j (or_intror Hj)) (f acc i))
      as (cs & E & Hlen & Hall).
    exists (c :: cs).
    change (fold_left f (i :: l) acc) with (fold_left f l (f acc i)).
    rewrite E. unfold f.
    change (String.length characters) with 32%nat. rewrite Hc.
    rewrite list_ascii_append. simpl. rewrite <- app_assoc. simpl.
    split; [reflexivity|]. split; [lia|].
    constructor; [|assumption]. split; [|assumption].
    exact (string_get_In characters _ c Hg).
Qed.

(** The loop test holds for the counters below the ceiling of a finite
    [length]. *)
Lemma less_than_finite (i : nat) (q : Q) :
  Client.less_than i (Client.Finite q) = (i <? Z.to_nat (Qceiling q))%nat.
Proof.
  unfold Client.less_than.
  destruct (Nat.ltb_spec i (Z.to_nat (Qceiling q))) as [Hlt|Hge].
  - apply negb_true_iff. destruct (Qle_bool q (inject_Z (Z.of_nat i))) eqn:E;
      [|reflexivity].
    apply Qle_bool_iff, Qceiling_resp_le in E. rewrite Qceiling_Z in E. lia.
  - apply negb_false_iff, Qle_bool_iff.
    apply Qle_trans with (inject_Z (Qceiling q)); [apply Qle_ceiling|].
    rewrite <- Zle_Qle. lia.
Qed.

Lemma ceiling_6 (q : Q) :
  Z.to_nat (Qceiling q) = 6%nat <-> (5 < q /\ q <= 6)%Q.
Proof.
  split.
  - intros H. assert (Hc : Qceiling q = 6%Z) by lia. split.
    + pose proof (Qceiling_lt q) as Hlt. rewrite Hc in Hlt. exact Hlt.
    + pose proof (Qle_ceiling q) as Hle. rewrite Hc in Hle. exact Hle.
  - intros [Hlo Hhi].
    pose proof (Qceiling_resp_le _ _ Hhi) as H1.
    change 6%Q with (inject_Z 6) in H1. rewrite Qceiling_Z in H1.
    assert (H2 : (5 < Qceiling q)%Z).
    { apply Z.nle_gt. intros Hle.
      apply (Qlt_irrefl q). apply Qle_lt_trans with 5%Q; [|exact Hlo].
      apply Qle_trans with (inject_Z (Qceiling q)); [apply Qle_ceiling|].
      change 5%Q with (inject_Z 5). rewrite <- Zle_Qle. exact Hle. }
    lia.
Qed.

(** The loop on a finite [length]: with fuel for the rounds that are left it
    is the fold over their counters, with less it is still running. *)
Lemma generateRoomCode_loop_finite (rand : nat -> Q) (q : Q) (fuel : nat) :
  forall i acc,
    Client.generateRoomCode_loop fuel (Client.Finite q) rand i acc
    = if (Z.to_nat (Qceiling q) - i <=? fuel)%nat
      then Some (fold_left
                   (fun result i =>
                      result ++ charAt characters
                        (random_index (rand i) (String.length characters)))
                   (seq i (Z.to_nat (Qceiling q) - i)) acc)
      else None.
Proof.
  set (n := Z.to_nat (Qceiling q)).
  induction fuel as [|fuel IH]; intros i acc.
  - cbn [Client.generateRoomCode_loop]. rewrite less_than_finite. fold n.
    destruct (Nat.ltb_spec i n) as [Hlt|Hge].
    + destruct (Nat.leb_spec (n - i) 0); [lia|reflexivity].
    + replace (n - i)%nat with 0%nat by lia. reflexivity.
  - cbn [Client.generateRoomCode_loop]. rewrite less_than_finite. fold n.
    destruct (Nat.ltb_spec i n) as [Hlt|Hge].
    + cbv zeta. rewrite IH.
      replace (n - i)%nat with (S (n - S i)) by lia.
      change (S (n - S i) <=? S fuel)%nat with (n - S i <=? fuel)%nat.
      destruct (n - S i <=? fuel)%nat; reflexivity.
    + replace (n - i)%nat with 0%nat by lia. reflexivity.
Qed.

(** X18: the client's [generateRoomCode] on a finite [length] and draws in
    [0, 1) runs its loop once for each counter 0, 1, 2, ... below [length],
    that is ceil([length]) times and not at all when [length <= 0], and
    returns that many symbols of the alphabet: [length] symbols when
    [length] is a whole number that is not negative, 3 symbols for 2.5.
    The server accepts the code exactly when [5 < length <= 6]. With the
    default the client makes the code the server makes from the same draws.
    On [NaN] and on [-Infinity] the code is empty; on [Infinity] the loop
    does not end. Strings are taken without a greatest length. *)
Theorem client_generateRoomCode (rand : nat -> Q) :
  (forall q fuel,
     (forall i, (i < Z.to_nat (Qceiling q))%nat -> (0 <= rand i /\ rand i < 1)%Q) ->
     (Z.to_nat (Qceiling q) <= fuel)%nat ->
     exists code,
       Client.generateRoomCode fuel (Some (Client.Finite q)) rand = Some code
       /\ String.length code = Z.to_nat (Qceiling q)
       /\ Forall (fun c => In c alphabet) (list_ascii_of_string code)
       /\ (isValidRoomCode code = true <-> (5 < q /\ q <= 6)%Q))
  /\ (forall q fuel,
        (fuel < Z.to_nat (Qceiling q))%nat ->
        Client.generateRoomCode fuel (Some (Client.Finite q)) rand = None)
  /\ (forall (k fuel : nat),
        (forall i, (i < k)%nat -> (0 <= rand i /\ rand i < 1)%Q) ->
        (k <= fuel)%nat ->
        exists code,
          Client.generateRoomCode fuel
            (Some (Client.Finite (inject_Z (Z.of_nat k)))) rand = Some code
          /\ String.length code = k
          /\ (isValidRoomCode code = true <-> k = 6%nat))
  /\ (forall q fuel, (q <= 0)%Q ->
        Client.generateRoomCode fuel (Some (Client.Finite q)) rand = Some "")
  /\ (forall fuel,
        Client.generateRoomCode fuel (Some Client.NaN) rand = Some ""
        /\ Client.generateRoomCode fuel (Some Client.NegInfinity) rand = Some ""
        /\ Client.generateRoomCode fuel (Some Client.PosInfinity) rand = None)
  /\ (forall fuel, (6 <= fuel)%nat ->
        Client.generateRoomCode fuel None rand = Some (generateRoomCode rand)).
Proof.
  assert (Hfinite : forall q fuel,
            (forall i, (i < Z.to_nat (Qceiling q))%nat ->
                       (0 <= rand i /\ rand i < 1)%Q) ->
            (Z.to_nat (Qceiling q) <= fuel)%nat ->
            exists code,
              Client.generateRoomCode fuel (Some (Client.Finite q)) rand
              = Some code
              /\ String.length code = Z.to_nat (Qceiling q)
              /\ Forall (fun c => In c alphabet) (list_ascii_of_string code)
              /\ (isValidRoomCode code = true
                  <-> Z.to_nat (Qceiling q) = 6%nat)).
  { intros q fuel Hr Hfuel. unfold Client.generateRoomCode, default, id.
    cbv beta iota zeta. rewrite generateRoomCode_loop_finite, Nat.sub_0_r.
    destruct (Nat.leb_spec (Z.to_nat (Qceiling q)) fuel) as [_|Hlt]; [|lia].
    set (n := Z.to_nat (Qceiling q)) in *.
    destruct (code_loop rand (seq 0 n)) with (acc := "")
      as (cs & E & Hlen & Hall).
    { intros i Hi. apply in_seq in Hi. apply Hr. lia. }
    change (list_ascii_of_string "" ++ cs)%list with cs in E.
    rewrite length_seq in Hlen.
    eexists. split; [reflexivity|].
    assert (Hl : String.length
                   (fold_left
                      (fun result i =>
                         result ++ charAt characters
                           (random_index (rand i) (String.length characters)))
                      (seq 0 n) "") = n).
    { rewrite <- length_list_ascii, E. exact Hlen. }
    split; [exact Hl|]. split.
    - rewrite E. eapply List.Forall_impl; [|exact Hall]. simpl. tauto.
    - unfold isValidRoomCode. rewrite Hl, E.
      assert (Hf : forallb upper_or_digit cs = true).
      { apply forallb_forall. intros c Hc.
        rewrite List.Forall_forall in Hall. apply Hall. assumption. }
      rewrite Hf, andb_true_r. apply Nat.eqb_eq. }
  split; [|split; [|split; [|split; [|split]]]].
  - intros q fuel Hr Hfuel.
    destruct (Hfinite q fuel Hr Hfuel) as (code & E & Hl & Ha & Hv).
    exists code. repeat split; try assumption.
    + apply ceiling_6, Hv. assumption.
    + apply ceiling_6, Hv. assumption.
    + intros H. apply Hv, ceiling_6. exact H.
  - intros q fuel Hfuel. unfold Client.generateRoomCode, default, id.
    cbv beta iota zeta.
    rewrite generateRoomCode_loop_finite, Nat.sub_0_r.
    destruct (Nat.leb_spec (Z.to_nat (Qceiling q)) fuel); [lia|reflexivity].
  - intros k fuel Hr Hfuel.
    assert (Hk : Z.to_nat (Qceiling (inject_Z (Z.of_nat k))) = k).
    { rewrite Qceiling_Z. lia. }
    destruct (Hfinite (inject_Z (Z.of_nat k)) fuel) as (code & E & Hl & _ & Hv).
    { rewrite Hk. exact Hr. }
    { rewrite Hk. exact Hfuel. }
    exists code. rewrite Hk in Hl, Hv. auto.
  - intros q fuel Hq. unfold Client.generateRoomCode, default, id.
    cbv beta iota zeta.
    rewrite generateRoomCode_loop_finite, Nat.sub_0_r.
    assert (Hn : Z.to_nat (Qceiling q) = 0%nat).
    { pose proof (Qceiling_resp_le _ _ Hq) as H.
      change 0%Q with (inject_Z 0) in H. rewrite Qceiling_Z in H. lia. }
    rewrite Hn. reflexivity.
  - intros fuel. split; [|split].
    + destruct fuel; reflexivity.
    + destruct fuel; reflexivity.
    + unfold Client.generateRoomCode, default, id.
    cbv beta iota zeta.
      generalize 0%nat at 1. generalize ""%string.
      induction fuel as [|fuel IH]; intros acc i; [reflexivity|].
      cbn [Client.generateRoomCode_loop Client.less_than]. apply IH.
  - intros fuel Hfuel. unfold Client.generateRoomCode, default, id.
    cbv beta iota zeta.
    rewrite generateRoomCode_loop_finite.
    change (Z.to_nat (Qceiling 6)) with 6%nat. rewrite Nat.sub_0_r.
    destruct (Nat.leb_spec 6 fuel); [reflexivity|lia].
Qed.

Lemma client_generateRoomCode_witness :
  (exists code,
     Client.generateRoomCode 6 (Some (Client.Finite (11 # 2))) draws_ABC234
     = Some code
     /\ String.length code = 6%nat
     /\ isValidRoomCode code = true)
  /\ (exists code,
        Client.generateRoomCode 6 (Some (Client.Finite (5 # 2))) draws_ABC234
        = Some code
        /\ String.length code = 3%nat)
  /\ (exists code,
        Client.generateRoomCode 4 (Some (Client.Finite 4)) draws_ABC234
        = Some code
        /\ String.length code = 4%nat)
  /\ Client.generateRoomCode 6 (Some (Client.Finite (-1))) draws_ABC234
     = Some ""
  /\ Client.generateRoomCode 6 None draws_ABC234 = Some "ABC234".
Proof.
  split; [|split; [|split; [|split]]].
  - destruct (proj1 (client_generateRoomCode draws_ABC234) (11 # 2)%Q 6%nat)
      as (code & E & Hl & _ & Hv).
    { intros i Hi. apply unit_draws_ABC234. exact Hi. }
    { apply le_n. }
    exists code. split; [exact E|]. split; [exact Hl|].
    apply Hv. split; reflexivity || (intros H; discriminate H).
  - destruct (proj1 (client_generateRoomCode draws_ABC234) (5 # 2)%Q 6%nat)
      as (code & E & Hl & _).
    { intros i Hi. apply unit_draws_ABC234.
      change (Z.to_nat (Qceiling (5 # 2))) with 3%nat in Hi. lia. }
    { change (Z.to_nat (Qceiling (5 # 2))) with 3%nat. lia. }
    exists code. split; [exact E|exact Hl].
  - destruct (proj1 (proj2 (proj2 (client_generateRoomCode draws_ABC234)))
                4%nat 4%nat) as (code & E & Hl & _).
    { intros i Hi. apply unit_draws_ABC234. lia. }
    { apply le_n. }
    exists code. split; [exact E|exact Hl].
  - apply (proj1 (proj2 (proj2 (proj2 (client_generateRoomCode draws_ABC234))))).
    intros H. discriminate H.
  - rewrite (proj2 (proj2 (proj2 (proj2 (proj2
               (client_generateRoomCode draws_ABC234))))) 6%nat (le_n 6)).
    reflexivity.
Defined.

(** X19: on a string the client's [formatRoomCode] does what the server's
    does, with a hyphen where the server puts a space, so the two differ
    exactly on the strings of 6 characters; on [null] and [undefined] the
    client's throws where the server's returns its argument. *)
Theorem client_formatRoomCode :
  (forall s, String.length s = 6%nat ->
     Client.formatRoomCode (JsStr s)
     = Some (JsStr (substring 0 3 s ++ "-" ++ substring 3 3 s))
     /\ Client.formatRoomCode (JsStr s) <> Some (formatRoomCode (JsStr s)))
  /\ (forall s, String.length s <> 6%nat ->
        Client.formatRoomCode (JsStr s) = Some (JsStr s)
        /\ formatRoomCode (JsStr s) = JsStr s)
  /\ Client.formatRoomCode JsNull = None
  /\ Client.formatRoomCode JsUndefined = None
  /\ formatRoomCode JsNull = JsNull
  /\ formatRoomCode JsUndefined = JsUndefined.
Proof.
  split; [|split; [|repeat split]].
  - intros s Hs.
    do 6 (destruct s as [|? s]; [discriminate|]).
    destruct s; [|discriminate]. split; [reflexivity|]. discriminate.
  - intros s Hs. unfold Client.formatRoomCode, formatRoomCode, falsy.
    destruct (Nat.eqb_spec (String.length s) 6); [contradiction|]. simpl.
    split; [reflexivity|]. destruct (String.length s =? 0)%nat; reflexivity.
Qed.

Lemma client_formatRoomCode_witness :
  Client.formatRoomCode (JsStr "ABC123") = Some (JsStr "ABC-123")
  /\ Client.formatRoomCode (JsStr "AB") = Some (JsStr "AB").
Proof.
  split.
  - exact (proj1 (proj1 client_formatRoomCode "ABC123" eq_refl)).
  - apply (proj1 (proj2 client_formatRoomCode) "AB"). simpl. lia.
Defined.

(** ** The socket handlers *)

Lemma joinRoom_status now roomCode user s room' :
  result (joinRoom now roomCode user) s = Some room' ->
  Room.status room' = WAITING.
Proof.
  unfold result. rewrite joinRoom_eq.
  destruct (lookup roomCode s) as [room|]; [|discriminate].
  destruct (_ >=? _); [discriminate|].
  destruct (Room.status room) eqn:E; simpl; try discriminate.
  intros [= <-]. simpl. exact E.
Qed.

Lemma joinRoom_failed now roomCode user s :
  result (joinRoom now roomCode user) s = None ->
  after (joinRoom now roomCode user) s = s.
Proof.
  unfold result, after. rewrite joinRoom_eq.
  destruct (lookup roomCode s) as [room|]; [|reflexivity].
  destruct (_ >=? _); [reflexivity|].
  destruct (negb _); [reflexivity|discriminate].
Qed.

Lemma joined_players_socket (user : User.t) (l : list User.t) sid :
  unique_ids l -> User.socketId user = Defined sid ->
  forall p, In p (joined_players user l) -> User.id p = User.id user ->
            User.socketId p = Defined sid.
Proof.
  intros Hnd Hsid p Hin Hp. unfold joined_players in Hin.
  destruct (findIndex _ l) as [i|] eqn:E.
  - destruct (findIndex_Some _ _ _ E) as (old & Hold & Hf & _).
    apply has_id_true in Hf. rewrite Hold in Hin.
    rewrite (insert_unique l i old (refresh_user old user) p); auto;
      [|congruence].
    simpl. rewrite Hsid. reflexivity.
  - apply in_app_or in Hin as [Hin|[<-|[]]]; [|exact Hsid].
    pose proof (proj1 (findIndex_None _ l) E p Hin) as Hfalse.
    apply has_id_false in Hfalse. contradiction.
Qed.

(** X20: the [join_room] handler answers a failed join with one
    JOIN_ROOM_ERROR to the requesting socket and leaves the store as it
    was; after a successful join it puts the socket into the channel of
    the room and sends the room to that channel, never a game state. On a
    reachable store the member that joined is connected and carries the
    id of the socket. *)
Theorem onJoinRoom_effects socketId userUuid now roomCode user (s : Store) :
  onJoinRoom socketId userUuid now roomCode user s
  = match result (joinRoom now roomCode (socket_user socketId userUuid user)) s
    with
    | Some room =>
        ([ SocketJoin socketId (Room.id room);
           Emit (ToRoom (Room.id room)) ROOM_UPDATED (RoomPayload room) ],
         after (joinRoom now roomCode (socket_user socketId userUuid user)) s)
    | None =>
        ([ Emit (ToSocket socketId) ERROR
             (ErrorResponse "JOIN_ROOM_ERROR"
                "Failed to join room. Room may not exist, be full, or game already started.") ],
         s)
    end
  /\ (forall room,
        reachable s ->
        result (joinRoom now roomCode (socket_user socketId userUuid user)) s
        = Some room ->
        forall p, In p (Room.players room) ->
                  User.id p = User.id (socket_user socketId userUuid user) ->
                  User.isConnected p = true
                  /\ User.socketId p = Defined socketId).
Proof.
  split.
  - unfold onJoinRoom, bind, result, after.
    pose proof (joinRoom_status now roomCode
                  (socket_user socketId userUuid user) s) as Hst.
    pose proof (joinRoom_failed now roomCode
                  (socket_user socketId userUuid user) s) as Hfail.
    unfold result, after in Hst, Hfail.
    destruct (joinRoom now roomCode (socket_user socketId userUuid user) s)
      as [[room|] s']; simpl in *.
    + rewrite (Hst room eq_refl). reflexivity.
    + rewrite (Hfail eq_refl). reflexivity.
  - intros room Hreach Hres p Hin Hp.
    pose proof (reachable_by_ok _ _ Hreach) as Hok.
    unfold result in Hres. rewrite joinRoom_eq in Hres.
    destruct (lookup roomCode s) as [found|] eqn:E; [|discriminate].
    destruct (_ >=? _); [discriminate|].
    destruct (negb _); [discriminate|]. simpl in Hres. injection Hres as <-.
    simpl in Hin.
    assert (Hids : unique_ids (Room.players found)).
    { apply lookup_In in E as [k E]. apply (ok_rooms _ Hok) in E. apply E. }
    split.
    + exact (proj2 (joined_players_connected _ _ Hids) p Hin Hp).
    + exact (joined_players_socket (socket_user socketId userUuid user) _
               socketId Hids eq_refl p Hin Hp).
Qed.

Lemma onJoinRoom_effects_witness :
  reachable room_created
  /\ fst (onJoinRoom "socket-9" "uuid-9" 1001 "ABC234" user_P room_created)
     = [ SocketJoin "socket-9" "uuid-1";
         Emit (ToRoom "uuid-1") ROOM_UPDATED
           (RoomPayload
              (Room.mk "uuid-1" "ABC234" WAITING "host-id"
                 [ host_H;
                   User.mk "user-id" "User" Absent true (Defined "socket-9") ]
                 10 None 1000 1001)) ]
  /\ User.socketId (User.mk "user-id" "User" Absent true (Defined "socket-9"))
     = Defined "socket-9".
Proof.
  assert (H : reachable room_created).
  { unfold room_created, create_H, reachable. by_run. }
  split; [exact H|]. split.
  - rewrite (proj1 (onJoinRoom_effects "socket-9" "uuid-9" 1001 "ABC234"
                      user_P room_created)).
    reflexivity.
  - apply (proj2 (onJoinRoom_effects "socket-9" "uuid-9" 1001 "ABC234"
                    user_P room_created) _ H eq_refl).
    + simpl. auto.
    + reflexivity.
Defined.

(** X21: the [leave_room] handler answers an unknown code with one
    LEAVE_ROOM_ERROR to the requesting socket and leaves the store as it
    was. For a known code it takes the socket out of the channel of the
    room and then sends the room the leave returns to that channel: the
    room as it was when the user is no member, the room without the user
    when members stay, and nothing when the last member left. *)
Theorem onLeaveRoom_effects socketId now roomCode userId (s : Store) :
  (lookup roomCode s = None ->
   onLeaveRoom socketId now roomCode userId s
   = ([ Emit (ToSocket socketId) ERROR
          (ErrorResponse "LEAVE_ROOM_ERROR" "Room not found") ], s))
  /\ forall room,
       lookup roomCode s = Some room ->
       (~ In userId (map User.id (Room.players room)) ->
        onLeaveRoom socketId now roomCode userId s
        = ([ SocketLeave socketId (Room.id room);
             Emit (ToRoom (Room.id room)) ROOM_UPDATED (RoomPayload room) ],
           s))
       /\ (In userId (map User.id (Room.players room)) ->
           remaining userId (Room.players room) = [] ->
           fst (onLeaveRoom socketId now roomCode userId s)
           = [ SocketLeave socketId (Room.id room) ]
           /\ JsMap.get (Room.id room)
                (rooms (snd (onLeaveRoom socketId now roomCode userId s)))
              = None)
       /\ (In userId (map User.id (Room.players room)) ->
           remaining userId (Room.players room) <> [] ->
           exists room',
             fst (onLeaveRoom socketId now roomCode userId s)
             = [ SocketLeave socketId (Room.id room);
                 Emit (ToRoom (Room.id room)) ROOM_UPDATED
                   (RoomPayload room') ]
             /\ Room.players room' = remaining userId (Room.players room)
             /\ Room.id room' = Room.id room
             /\ JsMap.get (Room.id room)
                  (rooms (snd (onLeaveRoom socketId now roomCode userId s)))
                = Some room').
Proof.
  unfold onLeaveRoom, bind. rewrite getRoomByCode_eq. split.
  - intros ->. reflexivity.
  - intros room Hl. rewrite Hl. cbv beta iota. rewrite leaveRoom_eq, Hl.
    split; [|split].
    + intros Habs. apply findIndex_absent in Habs. rewrite Habs. reflexivity.
    + intros Hin Hrem.
      destruct (findIndex _ _) eqn:F;
        [|apply findIndex_absent in F; contradiction].
      rewrite players_departed, Hrem, id_departed. simpl.
      split; [reflexivity|]. rewrite get_delete, String.eqb_refl. reflexivity.
    + intros Hin Hrem.
      destruct (findIndex _ _) eqn:F;
        [|apply findIndex_absent in F; contradiction].
      rewrite players_departed, id_departed.
      destruct (remaining userId (Room.players room)) eqn:Er; [congruence|].
      simpl. eexists. rewrite id_handed_over. split; [reflexivity|].
      simpl. rewrite players_handed_over, id_handed_over.
      split; [exact Er|]. split; [reflexivity|].
      rewrite get_set, String.eqb_refl. reflexivity.
Qed.

Lemma onLeaveRoom_effects_witness :
  fst (onLeaveRoom "socket-9" 1002 "ABC234" "host-id" room_created)
  = [ SocketLeave "socket-9" "uuid-1" ]
  /\ onLeaveRoom "socket-9" 1002 "XYZ789" "host-id" room_created
     = ([ Emit (ToSocket "socket-9") ERROR
            (ErrorResponse "LEAVE_ROOM_ERROR" "Room not found") ],
        room_created).
Proof.
  split.
  - apply (proj1 (proj2 (proj2 (onLeaveRoom_effects "socket-9" 1002 "ABC234"
                                  "host-id" room_created)
                           _ eq_refl))).
    + simpl. auto.
    + reflexivity.
  - apply (proj1 (onLeaveRoom_effects "socket-9" 1002 "XYZ789" "host-id"
                    room_created)).
    reflexivity.
Defined.

(** X22: the [start_game] handler answers a failed start with one
    START_GAME_ERROR to the requesting socket and leaves the store as it
    was; after a successful start it sends the started room and then its
    game state, Composing with 300 seconds, to the channel of the room. *)
Theorem onStartGame_effects socketId r now roomCode userId (s : Store) :
  onStartGame socketId r now roomCode userId s
  = match result (startGame r now roomCode userId) s with
    | Some room =>
        ([ Emit (ToRoom (Room.id room)) ROOM_UPDATED (RoomPayload room);
           Emit (ToRoom (Room.id room)) GAME_STATE_UPDATED
             (GameStatePayload
                (GameState.mk (Room.id room) COMPOSING (Room.theme room)
                   (Some 300))) ],
         after (startGame r now roomCode userId) s)
    | None =>
        ([ Emit (ToSocket socketId) ERROR
             (ErrorResponse "START_GAME_ERROR"
                "Failed to start game. You may not be the host or there are not enough players.") ],
         s)
    end.
Proof.
  unfold onStartGame, bind, result, after. rewrite startGame_eq.
  destruct (lookup roomCode s) as [room|]; [|reflexivity].
  destruct (negb _); [reflexivity|].
  destruct (_ <? _)%nat; [reflexivity|]. simpl.
  unfold getGameState, getRoomById, rooms_get, bind, ret. simpl.
  rewrite get_set, String.eqb_refl. reflexivity.
Qed.

(** X23: the [create_room] handler stores the user of the payload as host
    and only member, connected and with the id of the socket, under the id
    of the payload or, when that is empty, under a fresh one; it puts the
    socket into the channel of the new room and sends the room to the
    socket and to the channel. *)
Theorem onCreateRoom_effects socketId userUuid attempts roomUuid now user
    maxPlayers (s : Store) room :
  result (createRoom attempts roomUuid now
            (socket_user socketId userUuid user) maxPlayers) s = Some room ->
  fst (onCreateRoom socketId userUuid attempts roomUuid now user maxPlayers s)
  = [ SocketJoin socketId roomUuid;
      Emit (ToSocket socketId) ROOM_CREATED (RoomPayload room);
      Emit (ToRoom roomUuid) ROOM_UPDATED (RoomPayload room) ]
  /\ Room.id room = roomUuid
  /\ Room.players room
     = [ User.mk (if String.eqb (User.id user) "" then userUuid
                  else User.id user)
           (User.username user) (User.avatar user) true (Defined socketId) ]
  /\ Room.hostId room
     = (if String.eqb (User.id user) "" then userUuid else User.id user)
  /\ JsMap.get roomUuid
       (rooms (snd (onCreateRoom socketId userUuid attempts roomUuid now user
                      maxPlayers s))) = Some room.
Proof.
  unfold onCreateRoom, bind, result. rewrite createRoom_eq.
  destruct (result (unique_code attempts) s) as [c|]; [|discriminate].
  cbn zeta. simpl. intros [= <-]. simpl.
  repeat split. rewrite get_set, String.eqb_refl. reflexivity.
Qed.

Lemma onCreateRoom_effects_witness :
  Room.players
    (Room.mk "uuid-1" "ABC234" WAITING "uuid-7"
       [User.mk "uuid-7" "Host" Absent true (Defined "socket-9")] 10 None
       1000 1000)
  = [User.mk "uuid-7" "Host" Absent true (Defined "socket-9")].
Proof.
  exact (proj1 (proj2 (proj2
           (onCreateRoom_effects "socket-9" "uuid-7" [draws_ABC234] "uuid-1"
              1000 (User.mk "" "Host" Absent false Absent) None empty_store
              _ eq_refl)))).
Defined.

(** ** Calls about a user who is not in the room (C6) *)

(** What [getRoomByCode] finds, in terms of the two maps. *)
Lemma lookup_iff code (s : Store) room :
  lookup code s = Some room
  <-> isValidRoomCode code = true
      /\ exists k, roomsByCode s !! code = Some k /\ k <> ""
                   /\ JsMap.get k (rooms s) = Some room.
Proof.
  split.
  - unfold lookup, result, getRoomByCode, bind, roomsByCode_get, rooms_get, ret.
    destruct (isValidRoomCode code); simpl; [|discriminate].
    destruct (roomsByCode s !! code) as [k|]; [|discriminate].
    destruct (String.eqb_spec k ""); simpl; [discriminate|]. eauto.
  - intros (Hv & k & Hc & Hk & Hr). eapply lookup_found; eauto.
Qed.

(** C6: [leaveRoom] on a code that leads to a stored room, and
    [updateUserConnection] on the id of a stored room, for a user id that
    is not among the members of that room, return that room and leave the
    store as it was; so does [leaveRoom] on the code of any room of a
    reachable store. On these paths the call fails only when there is no
    room: it returns what the lookup of the room returns. *)
Theorem absent_user_noop (s : Store) (userId : string) :
  (forall now roomCode k room,
     isValidRoomCode roomCode = true ->
     roomsByCode s !! roomCode = Some k -> k <> "" ->
     JsMap.get k (rooms s) = Some room ->
     ~ In userId (map User.id (Room.players room)) ->
     leaveRoom now roomCode userId s = (Some room, s))
  /\ (forall now roomId isConnected socketId room,
        JsMap.get roomId (rooms s) = Some room ->
        ~ In userId (map User.id (Room.players room)) ->
        updateUserConnection now roomId userId isConnected socketId s
        = (Some room, s))
  /\ (reachable_by well_drawn s ->
      forall now k room,
        JsMap.get k (rooms s) = Some room ->
        ~ In userId (map User.id (Room.players room)) ->
        leaveRoom now (Room.code room) userId s = (Some room, s))
  /\ (forall now roomCode,
        (forall room, lookup roomCode s = Some room ->
                      ~ In userId (map User.id (Room.players room))) ->
        leaveRoom now roomCode userId s = (lookup roomCode s, s)
        /\ (result (leaveRoom now roomCode userId) s = None
            <-> lookup roomCode s = None)
        /\ (result (leaveRoom now roomCode userId) s = None
            <-> ~ (isValidRoomCode roomCode = true
                   /\ exists k room,
                        roomsByCode s !! roomCode = Some k /\ k <> ""
                        /\ JsMap.get k (rooms s) = Some room)))
  /\ (forall now roomId isConnected socketId,
        (forall room, result (getRoomById roomId) s = Some room ->
                      ~ In userId (map User.id (Room.players room))) ->
        updateUserConnection now roomId userId isConnected socketId s
        = (result (getRoomById roomId) s, s)
        /\ (result (updateUserConnection now roomId userId isConnected socketId) s
            = None
            <-> JsMap.get roomId (rooms s) = None)).
Proof.
  assert (Hleave : forall now roomCode room,
            lookup roomCode s = Some room ->
            ~ In userId (map User.id (Room.players room)) ->
            leaveRoom now roomCode userId s = (Some room, s)).
  { intros now roomCode room Hl Habs. rewrite leaveRoom_eq, Hl.
    apply findIndex_absent in Habs. rewrite Habs. reflexivity. }
  assert (Hupdate : forall now roomId isConnected socketId room,
            JsMap.get roomId (rooms s) = Some room ->
            ~ In userId (map User.id (Room.players room)) ->
            updateUserConnection now roomId userId isConnected socketId s
            = (Some room, s)).
  { intros now roomId isConnected socketId room Hr Habs.
    rewrite updateUserConnection_eq, Hr.
    apply findIndex_absent in Habs. rewrite Habs. reflexivity. }
  split; [|split; [|split; [|split]]].
  - intros now roomCode k room Hv Hc Hk Hr Habs.
    apply Hleave; [|exact Habs]. apply lookup_iff. eauto.
  - exact Hupdate.
  - intros Hreach now k room Hr Habs.
    apply Hleave; [|exact Habs]. eapply stored_room_found; eauto.
  - intros now roomCode Habs.
    assert (E : leaveRoom now roomCode userId s = (lookup roomCode s, s)).
    { destruct (lookup roomCode s) as [room|] eqn:Hl.
      - apply Hleave; auto.
      - rewrite leaveRoom_eq, Hl. reflexivity. }
    split; [exact E|]. unfold result. rewrite E. simpl.
    split; [reflexivity|]. split.
    + intros Hnone (Hv & k & room & Hc & Hk & Hr).
      assert (Hl : lookup roomCode s = Some room) by (apply lookup_iff; eauto).
      congruence.
    + intros Hno. destruct (lookup roomCode s) as [room|] eqn:Hl; [|reflexivity].
      exfalso. apply Hno. apply lookup_iff in Hl as (Hv & k & Hc & Hk & Hr).
      eauto 6.
  - intros now roomId isConnected socketId Habs.
    unfold getRoomById, rooms_get, result in *. simpl in *.
    assert (E : updateUserConnection now roomId userId isConnected socketId s
                = (JsMap.get roomId (rooms s), s)).
    { destruct (JsMap.get roomId (rooms s)) as [room|] eqn:Hr.
      - apply Hupdate; auto.
      - rewrite updateUserConnection_eq, Hr. reflexivity. }
    split; [exact E|]. rewrite E. reflexivity.
Qed.

Lemma absent_user_noop_witness :
  leaveRoom 1002 "ABC234" "stranger" room_joined
  = (Some (Room.mk "uuid-1" "ABC234" WAITING "host-id" [host_H; user_P] 10
             None 1000 1001),
     room_joined)
  /\ updateUserConnection 1002 "uuid-1" "stranger" true None room_joined
     = (Some (Room.mk "uuid-1" "ABC234" WAITING "host-id" [host_H; user_P] 10
                None 1000 1001),
        room_joined)
  /\ leaveRoom 1002 "XYZ789" "stranger" room_joined = (None, room_joined).
Proof.
  assert (Habs : ~ In "stranger" (map User.id [host_H; user_P])).
  { simpl. intros [H|[H|[]]]; discriminate H. }
  split; [|split].
  - apply (proj1 (absent_user_noop room_joined "stranger") 1002 "ABC234"
             "uuid-1"); [reflexivity|reflexivity|discriminate|reflexivity|].
    exact Habs.
  - apply (proj1 (proj2 (absent_user_noop room_joined "stranger")));
      [reflexivity|exact Habs].
  - refine (proj1 (proj1 (proj2 (proj2 (proj2
             (absent_user_noop room_joined "stranger")))) 1002 "XYZ789" _)).
    intros room H. discriminate H.
Defined.
